(** * Math Solver Vision: crop pipeline and session state machine

    A shallow embedding of [src/components/ImageCropModal.tsx],
    [src/components/ImageUploader.tsx], [src/components/MarkdownRenderer.tsx],
    [src/App.tsx] and [src/services/geminiService.ts].

    - JavaScript numbers are IEEE-754 binary64 values: the program is
      embedded over Rocq's primitive floats, whose [*] and [/] are the
      engine's.  The arithmetic kernel of the crop (the two scale factors
      and the four products) is written once over an interface [Arith], so
      that the very same definition can also be read in exact rational
      arithmetic.
    - Strings are sequences of 8-bit code units.
    - React state is a record; every handler is a function on the whole
      world (component state, object-URL registry, requests in flight);
      an [await] splits a handler into the part before it and a
      continuation run by the event that settles the promise. *)

From Stdlib Require Import Uint63 PrimFloat FloatOps SpecFloat.
From Stdlib Require Import ZArith NArith QArith Lia.
From Stdlib Require Import Bool List String Ascii.
Import ListNotations.

Close Scope Q_scope.
Local Open Scope string_scope.

(* ================================================================= *)
(** ** JavaScript strings *)

Module JsString.

(** [s.startsWith(p)] *)
Definition startsWith (p s : string) : bool := String.prefix p s.

Fixpoint drop (n : nat) (s : string) : string :=
  match n, s with
  | S n', String _ s' => drop n' s'
  | _, _ => s
  end.

(** [s.replace(pat, rep)] with a string pattern: only the first
    occurrence is replaced. *)
Fixpoint replace (pat rep s : string) : string :=
  if String.prefix pat s then rep ++ drop (String.length pat) s
  else match s with
       | EmptyString => EmptyString
       | String c s' => String c (replace pat rep s')
       end.

(** White space and line terminators of the 8-bit range, as
    [String.prototype.trim] strips them: TAB, LF, VT, FF, CR, SP, NBSP. *)
Definition isWhiteSpace (c : ascii) : bool :=
  let n := nat_of_ascii c in
  Nat.eqb n 9 || Nat.eqb n 10 || Nat.eqb n 11 || Nat.eqb n 12
  || Nat.eqb n 13 || Nat.eqb n 32 || Nat.eqb n 160.

Fixpoint trimStart (s : string) : string :=
  match s with
  | String c s' => if isWhiteSpace c then trimStart s' else s
  | EmptyString => EmptyString
  end.

(** [trimEnd] keeps a character when it is not white space or when
    something is kept after it. *)
Fixpoint trimEnd (s : string) : string :=
  match s with
  | EmptyString => EmptyString
  | String c s' =>
      match trimEnd s' with
      | EmptyString => if isWhiteSpace c then EmptyString
                       else String c EmptyString
      | t => String c t
      end
  end.

Definition trim (s : string) : string := trimEnd (trimStart s).

(** Truthiness of a string: the empty string is the only falsy one. *)
Definition truthy (s : string) : bool :=
  match s with EmptyString => false | _ => true end.

(** [s.split(sep)] for a one-character separator. *)
Fixpoint split (sep : ascii) (s : string) : list string :=
  match s with
  | EmptyString => [EmptyString]
  | String c s' =>
      if Ascii.eqb c sep then EmptyString :: split sep s'
      else match split sep s' with
           | h :: t => String c h :: t
           | [] => [String c EmptyString]
           end
  end.

End JsString.

(* ================================================================= *)
(** ** Numbers *)

(** The operations the crop arithmetic uses.  [of_uint] reads a DOM
    attribute of type [unsigned long] as a number. *)
Class Arith (num : Type) : Type := {
  mul : num -> num -> num;
  div : num -> num -> num;
  of_uint : N -> num
}.

(** IEEE-754 binary64, the arithmetic the engine runs. *)
#[export] Instance Float64 : Arith float := {|
  mul := PrimFloat.mul;
  div := PrimFloat.div;
  of_uint := fun n => PrimFloat.of_uint63 (Uint63.of_Z (Z.of_N n))
|}.

(** Exact rational arithmetic. *)
#[export] Instance Exact : Arith Q := {|
  mul := Qmult;
  div := Qdiv;
  of_uint := fun n => inject_Z (Z.of_N n)
|}.

(** ToBoolean on a number: [0], [-0] and [NaN] are falsy. *)
Definition falsy (v : float) : bool :=
  PrimFloat.eqb v 0%float || PrimFloat.is_nan v.

(** [a || b] on numbers. *)
Definition orElse (a b : float) : float := if falsy a then b else a.

(** Conversion of a number to a DOM [unsigned long]: not-a-number and the
    infinities give [0], a finite value is truncated toward zero and taken
    modulo [2^32]. *)
Definition toUnsignedLong (v : float) : N :=
  match Prim2SF v with
  | S754_finite s m e =>
      let a := if (0 <=? e)%Z then (Z.pos m * 2 ^ e)%Z
               else (Z.pos m / 2 ^ (- e))%Z in
      Z.to_N ((if s then - a else a) mod 2 ^ 32)%Z
  | _ => 0%N
  end.

(* ================================================================= *)
(** ** The crop: [ImageCropModal.tsx], [getCroppedImg] *)

(** [PixelCrop] of react-image-crop (its [unit] field is always ['px']);
    also used for any rectangle [{x, y, width, height}]. *)
Record PixelCrop (num : Type) : Type := {
  crop_x : num;
  crop_y : num;
  crop_width : num;
  crop_height : num
}.
Arguments crop_x {num} _.
Arguments crop_y {num} _.
Arguments crop_width {num} _.
Arguments crop_height {num} _.

(** The four attributes of an [HTMLImageElement] the crop reads, all of
    DOM type [unsigned long], and whether the element is in the broken
    state, in which [drawImage] refuses it. *)
Record HTMLImageElement : Type := {
  naturalWidth : N;
  naturalHeight : N;
  img_width : N;
  img_height : N;
  img_broken : bool   (* the image is in the broken state: no usable data *)
}.

Section Mapping.
Context {num : Type} {A : Arith num}.

(** [const scaleX = image.naturalWidth / image.width] *)
Definition scaleX (image : HTMLImageElement) : num :=
  div (of_uint (naturalWidth image)) (of_uint (img_width image)).

(** [const scaleY = image.naturalHeight / image.height] *)
Definition scaleY (image : HTMLImageElement) : num :=
  div (of_uint (naturalHeight image)) (of_uint (img_height image)).

(** The source rectangle handed to [drawImage]:
    [crop.x * scaleX, crop.y * scaleY, crop.width * scaleX,
     crop.height * scaleY]. *)
Definition sourceRect (image : HTMLImageElement) (crop : PixelCrop num)
  : PixelCrop num :=
  {| crop_x := mul (crop_x crop) (scaleX image);
     crop_y := mul (crop_y crop) (scaleY image);
     crop_width := mul (crop_width crop) (scaleX image);
     crop_height := mul (crop_height crop) (scaleY image) |}.

End Mapping.

(** *** The canvas *)

Inductive ImageSmoothingQuality : Type := low | medium | high.

(** The current transformation matrix [(a, b, c, d, e, f)]. *)
Record Matrix : Type := {
  m_a : float; m_b : float; m_c : float;
  m_d : float; m_e : float; m_f : float
}.

Definition identity : Matrix :=
  {| m_a := 1; m_b := 0; m_c := 0; m_d := 1; m_e := 0; m_f := 0 |}.

(** One [drawImage(image, sx, sy, sw, sh, dx, dy, dw, dh)] call, logged
    with the transformation in force when it was issued.  The log keeps
    the call as it was made; which pixels it paints is the browser's
    matter. *)
Record Blit : Type := {
  blit_src : PixelCrop float;
  blit_dst : PixelCrop float;
  blit_ctm : Matrix
}.

Record Canvas : Type := {
  cv_width : N;
  cv_height : N;
  cv_transform : Matrix;
  cv_imageSmoothingQuality : ImageSmoothingQuality;
  cv_blits : list Blit
}.

(** [document.createElement('canvas')]: 300 by 150, default context state. *)
Definition createCanvas : Canvas :=
  {| cv_width := 300; cv_height := 150; cv_transform := identity;
     cv_imageSmoothingQuality := low; cv_blits := [] |}.

(** The canvas attributes reflect a non-negative integer: a value above
    [2^31 - 1] is replaced by the attribute's default. *)
Definition reflected (default n : N) : N :=
  if (n <=? 2147483647)%N then n else default.

(** Assigning [canvas.width] or [canvas.height] converts the number to an
    [unsigned long], stores it as the reflected attribute (default 300,
    respectively 150), clears the bitmap and resets the context state. *)
Definition setWidth (v : float) (c : Canvas) : Canvas :=
  {| cv_width := reflected 300 (toUnsignedLong v); cv_height := cv_height c;
     cv_transform := identity; cv_imageSmoothingQuality := low;
     cv_blits := [] |}.

Definition setHeight (v : float) (c : Canvas) : Canvas :=
  {| cv_width := cv_width c; cv_height := reflected 150 (toUnsignedLong v);
     cv_transform := identity; cv_imageSmoothingQuality := low;
     cv_blits := [] |}.

Definition setTransform (m : Matrix) (c : Canvas) : Canvas :=
  {| cv_width := cv_width c; cv_height := cv_height c;
     cv_transform := m;
     cv_imageSmoothingQuality := cv_imageSmoothingQuality c;
     cv_blits := cv_blits c |}.

Definition setImageSmoothingQuality (q : ImageSmoothingQuality) (c : Canvas)
  : Canvas :=
  {| cv_width := cv_width c; cv_height := cv_height c;
     cv_transform := cv_transform c;
     cv_imageSmoothingQuality := q;
     cv_blits := cv_blits c |}.

(** How far the crop got with its canvas: no 2D context, or the canvas
    with the [drawImage] call it issued, which either painted or threw. *)
Inductive Rendering : Type :=
| NoContext
| DrawThrew (canvas : Canvas)
| Drawn (canvas : Canvas).

(** [ctx.drawImage(image, ...)]: the call is logged; for an image in the
    broken state it throws [InvalidStateError]. *)
Definition drawImage (image : HTMLImageElement) (src dst : PixelCrop float)
    (c : Canvas) : Rendering :=
  let c' :=
    {| cv_width := cv_width c; cv_height := cv_height c;
       cv_transform := cv_transform c;
       cv_imageSmoothingQuality := cv_imageSmoothingQuality c;
       cv_blits := cv_blits c ++
         [ {| blit_src := src; blit_dst := dst;
              blit_ctm := cv_transform c |} ] |} in
  if img_broken image then DrawThrew c' else Drawn c'.

(** What the page's environment supplies to the crop. *)
Record Browser : Type := {
  devicePixelRatio : float;                 (* window.devicePixelRatio *)
  context2d : bool;                         (* getContext('2d') is not null *)
  toDataURL : Canvas -> string -> string;   (* canvas.toDataURL(type) *)
  fetchData : string -> bool                (* fetch(url) of a data: URL
                                               yields a blob *)
}.

(** A promise that is already settled. *)
Inductive Promise (T : Type) : Type :=
| Resolved (v : T)
| Rejected (message : string).
Arguments Resolved {T} v.
Arguments Rejected {T} message.

(** The body of [getCroppedImg] up to its [drawImage] call. *)
Definition render (b : Browser) (image : HTMLImageElement)
    (crop : PixelCrop float) : Rendering :=
  let canvas := createCanvas in
  let canvas := setWidth (crop_width crop) canvas in
  let canvas := setHeight (crop_height crop) canvas in
  if negb (context2d b) then NoContext
  else
    let pixelRatio := orElse (devicePixelRatio b) 1 in
    let canvas := setWidth (crop_width crop * pixelRatio) canvas in
    let canvas := setHeight (crop_height crop * pixelRatio) canvas in
    let canvas :=
      setTransform {| m_a := pixelRatio; m_b := 0; m_c := 0;
                      m_d := pixelRatio; m_e := 0; m_f := 0 |} canvas in
    let canvas := setImageSmoothingQuality high canvas in
    drawImage image (sourceRect image crop)
              {| crop_x := 0%float; crop_y := 0%float;
                 crop_width := crop_width crop;
                 crop_height := crop_height crop |} canvas.

(** The canvas with the calls [getCroppedImg] issued on it, the
    [drawImage] call included whether it painted or threw; [None] when no
    2D context could be had. *)
Definition renderCrop (b : Browser) (image : HTMLImageElement)
    (crop : PixelCrop float) : option Canvas :=
  match render b image crop with
  | NoContext => None
  | DrawThrew canvas => Some canvas
  | Drawn canvas => Some canvas
  end.

(** [getCroppedImg]: [Rejected] stands for the rejected promise and for
    the exception thrown by [drawImage]; the caller's [catch] receives
    both. *)
Definition getCroppedImg (b : Browser) (image : HTMLImageElement)
    (crop : PixelCrop float) (fileType : string) : Promise string :=
  match render b image crop with
  | NoContext => Rejected "Could not get canvas context."
  | DrawThrew _ => Rejected "InvalidStateError"
  | Drawn canvas => Resolved (toDataURL b canvas fileType)
  end.

(* ================================================================= *)
(** ** Object URLs: [URL.createObjectURL], [URL.revokeObjectURL] *)

(** A blob URL, identified by its serial number. *)
Definition Url : Type := nat.

(** The registry keeps the calls made on it: the URLs handed out and the
    URLs revoked, each in call order. *)
Record UrlRegistry : Type := {
  next_url : nat;
  created : list Url;
  revoked : list Url
}.

Definition createObjectURL (r : UrlRegistry) : Url * UrlRegistry :=
  (next_url r,
   {| next_url := S (next_url r);
      created := created r ++ [next_url r];
      revoked := revoked r |}).

Definition revokeObjectURL (u : Url) (r : UrlRegistry) : UrlRegistry :=
  {| next_url := next_url r;
     created := created r;
     revoked := revoked r ++ [u] |}.

(** How many times [u] was revoked. *)
Definition releases (r : UrlRegistry) (u : Url) : nat :=
  count_occ Nat.eq_dec (revoked r) u.

(** The URLs created and not revoked. *)
Definition live (r : UrlRegistry) : list Url :=
  filter (fun u => negb (existsb (Nat.eqb u) (revoked r))) (created r).

(* ================================================================= *)
(** ** The solve service: [geminiService.ts] *)

Inductive Part : Type :=
| textPart (text : string)
| inlineData (mimeType : string) (data : option string).

Inductive Contents : Type :=
| parts (l : list Part)
| plain (problem : string).

(** The argument of [ai.models.generateContent]; the model name and the
    system instruction are the same constants in every call. *)
Record GenerateContentParameters : Type := {
  contents : Contents;
  thinkingBudget : option N
}.

(** How a call of [ai.models.generateContent] ends: with a response
    whose [text] is returned, with a response that has no text ([text] is
    [undefined]), by throwing an [Error] that carries a message, or by
    throwing a value that is not an [Error]. *)
Inductive Outcome : Type :=
| Responds (text : string)
| RespondsUndefined
| ThrowsError (message : string)
| ThrowsOther.

Module geminiService.

(** Both functions return [response.text], which is [undefined] ([None])
    when the response has no text. *)

Definition imageParameters (base64Image : option string)
    (mimeType : string) : GenerateContentParameters :=
  {| contents :=
       parts [ textPart "Solve the math problem shown in this image.";
               inlineData mimeType base64Image ];
     thinkingBudget := None |}.

Definition textParameters (problem : string) : GenerateContentParameters :=
  {| contents := plain problem; thinkingBudget := Some 0%N |}.

Definition solveMathProblemFromImage
    (generateContent : GenerateContentParameters -> Outcome)
    (base64Image : option string) (mimeType : string) : option string :=
  match generateContent (imageParameters base64Image mimeType) with
  | Responds text => Some text
  | RespondsUndefined => None
  | ThrowsError message => Some ("Error: " ++ message)
  | ThrowsOther =>
      Some "An unknown error occurred while analyzing the image."
  end.

Definition solveMathProblemFromText
    (generateContent : GenerateContentParameters -> Outcome)
    (problem : string) : option string :=
  match generateContent (textParameters problem) with
  | Responds text => Some text
  | RespondsUndefined => None
  | ThrowsError message => Some ("Error: " ++ message)
  | ThrowsOther =>
      Some "An unknown error occurred while solving the problem."
  end.

End geminiService.

(* ================================================================= *)
(** ** The application: [App.tsx] *)

(** Modelled from the spec: the enumeration [AppState] is declared in
    [types.ts], which is not among the sources; its five members are the
    ones [App.tsx] names, the spec's Idle, Selecting, Processing, Success
    and Failed. *)
Inductive AppState : Type := IDLE | CROPPING | ANALYZING | SUCCESS | ERROR.

Definition AppState_eqb (a b : AppState) : bool :=
  match a, b with
  | IDLE, IDLE | CROPPING, CROPPING | ANALYZING, ANALYZING
  | SUCCESS, SUCCESS | ERROR, ERROR => true
  | _, _ => false
  end.

Inductive InputMode : Type := upload | text.

(** A [File]: its name and its media type. *)
Record File : Type := {
  file_name : string;
  file_type : string
}.

(** The [useState] cells of [App]. *)
Record App : Type := {
  appState : AppState;
  inputMode : InputMode;
  imageToCrop : option (File * Url);
  uploadedImage : option Url;
  textProblem : string;
  submittedText : option string;
  solution : option string;
  error : option string
}.

(** The [useState] and [useRef] cells of [ImageCropModal]. *)
Record Modal : Type := {
  completedCrop : option (PixelCrop float);
  isProcessing : bool;
  imgRef : option HTMLImageElement
}.

(** A solve call that was issued and has not settled. *)
Inductive Call : Type :=
| ImageCall (base64 : option string) (mimeType : string)
| TextCall (problem : string).

Record World : Type := {
  app : App;
  modal : Modal;
  urls : UrlRegistry;
  inflight : list Call
}.

Definition initialApp : App :=
  {| appState := IDLE; inputMode := upload; imageToCrop := None;
     uploadedImage := None; textProblem := ""; submittedText := None;
     solution := None; error := None |}.

Definition initialModal : Modal :=
  {| completedCrop := None; isProcessing := false; imgRef := None |}.

Definition initialWorld : World :=
  {| app := initialApp; modal := initialModal;
     urls := {| next_url := 0; created := []; revoked := [] |};
     inflight := [] |}.

Definition withApp (a : App) (w : World) : World :=
  {| app := a; modal := modal w; urls := urls w; inflight := inflight w |}.

Definition withModal (m : Modal) (w : World) : World :=
  {| app := app w; modal := m; urls := urls w; inflight := inflight w |}.

Definition setIsProcessing (v : bool) (w : World) : World :=
  withModal {| completedCrop := completedCrop (modal w);
               isProcessing := v;
               imgRef := imgRef (modal w) |} w.

(** [handleImageSelect] *)
Definition handleImageSelect (file : File) (w : World) : World :=
  let a := app w in
  let r := match imageToCrop a with
           | Some (_, u) => revokeObjectURL u (urls w)
           | None => urls w
           end in
  let (u, r') := createObjectURL r in
  {| app := {| appState := CROPPING;
               inputMode := inputMode a;
               imageToCrop := Some (file, u);
               uploadedImage := uploadedImage a;
               textProblem := textProblem a;
               submittedText := submittedText a;
               solution := solution a;
               error := error a |};
     modal := modal w; urls := r'; inflight := inflight w |}.

(** The data URL [handleCropConfirm] fetches; [undefined] is spelled
    out by the template string. *)
Definition dataUrl (base64 : option string) (mimeType : string) : string :=
  "data:" ++ mimeType ++ ";base64,"
  ++ match base64 with Some data => data | None => "undefined" end.

(** [handleCropConfirm] up to its [await] of the solve call.  When the
    fetch of the data URL fails, the promise of the handler is rejected
    before any state is set, and nobody awaits it. *)
Definition handleCropConfirm (b : Browser) (base64 : option string)
    (mimeType : string) (w : World) : World :=
  if negb (fetchData b (dataUrl base64 mimeType)) then w else
  let a := app w in
  let (u, r') := createObjectURL (urls w) in
  {| app := {| appState := ANALYZING;
               inputMode := inputMode a;
               imageToCrop := None;
               uploadedImage := Some u;
               textProblem := textProblem a;
               submittedText := None;
               solution := None;
               error := None |};
     modal := modal w; urls := r';
     inflight := inflight w ++ [ImageCall base64 mimeType] |}.

(** [handleTextSubmit] up to its [await] of the solve call. *)
Definition handleTextSubmit (w : World) : World :=
  let a := app w in
  if negb (JsString.truthy (JsString.trim (textProblem a))) then w
  else
    {| app := {| appState := ANALYZING;
                 inputMode := inputMode a;
                 imageToCrop := imageToCrop a;
                 uploadedImage := None;
                 textProblem := textProblem a;
                 submittedText := Some (textProblem a);
                 solution := None;
                 error := None |};
       modal := modal w; urls := urls w;
       inflight := inflight w ++ [TextCall (textProblem a)] |}.

(** The [catch] block of both handlers:
    [setError(e.message || 'An unexpected error occurred.')]. *)
Definition catchError (message : string) (a : App) : App :=
  {| appState := ERROR;
     inputMode := inputMode a;
     imageToCrop := imageToCrop a;
     uploadedImage := uploadedImage a;
     textProblem := textProblem a;
     submittedText := submittedText a;
     solution := solution a;
     error := Some (if JsString.truthy message then message
                    else "An unexpected error occurred.") |}.

(** What both handlers do with the string the service returned. *)
Definition afterSolve (result : string) (a : App) : App :=
  if JsString.startsWith "Error:" result
  then catchError (JsString.replace "Error: " "" result) a
  else
    {| appState := SUCCESS;
       inputMode := inputMode a;
       imageToCrop := imageToCrop a;
       uploadedImage := uploadedImage a;
       textProblem := textProblem a;
       submittedText := submittedText a;
       solution := Some result;
       error := error a |}.

(** The message of the [TypeError] that [result.startsWith] throws when
    [result] is [undefined], as Chrome words it; every engine's is a
    sentence of this kind, none is empty. *)
Definition typeErrorMessage : string :=
  "Cannot read properties of undefined (reading 'startsWith')".

(** The [try] block after the [await]: on [undefined] the call of
    [startsWith] throws into the [catch]. *)
Definition afterAwait (result : option string) (a : App) : App :=
  match result with
  | Some returned => afterSolve returned a
  | None => catchError typeErrorMessage a
  end.

(** The continuation of the oldest call in flight, run when
    [generateContent] ends with outcome [o]. *)
Definition settle (o : Outcome) (w : World) : World :=
  match inflight w with
  | [] => w
  | c :: rest =>
      let result :=
        match c with
        | ImageCall base64 mimeType =>
            geminiService.solveMathProblemFromImage (fun _ => o)
              base64 mimeType
        | TextCall problem =>
            geminiService.solveMathProblemFromText (fun _ => o) problem
        end in
      {| app := afterAwait result (app w); modal := modal w;
         urls := urls w; inflight := rest |}
  end.

(** [handleReset] *)
Definition handleReset (w : World) : World :=
  let a := app w in
  let r := match uploadedImage a with
           | Some u => revokeObjectURL u (urls w)
           | None => urls w
           end in
  let r := match imageToCrop a with
           | Some (_, u) => revokeObjectURL u r
           | None => r
           end in
  {| app := {| appState := IDLE;
               inputMode := inputMode a;
               imageToCrop := None;
               uploadedImage := None;
               textProblem := "";
               submittedText := None;
               solution := None;
               error := None |};
     modal := modal w; urls := r; inflight := inflight w |}.

(** [ImageCropModal], [handleConfirmCrop]: the crop is encoded as
    ['image/jpeg'] and its data part handed to [onConfirm]. *)
Definition handleConfirmCrop (b : Browser) (w : World) : World :=
  match completedCrop (modal w), imgRef (modal w) with
  | Some crop, Some image =>
      let w := setIsProcessing true w in
      match getCroppedImg b image crop "image/jpeg" with
      | Resolved croppedImageBase64 =>
          handleCropConfirm b
            (nth_error (JsString.split "," croppedImageBase64) 1)
            "image/jpeg" w
      | Rejected _ => setIsProcessing false w
      end
  | _, _ => w
  end.

(** [ImageUploader], [handleFile] *)
Definition handleFile (file : option File) (w : World) : World :=
  match file with
  | Some f =>
      if JsString.startsWith "image/" (file_type f)
      then handleImageSelect f w
      else w
  | None => w
  end.

(* ================================================================= *)
(** ** What is on screen: the [return] of [App] and of the components *)

Module View.

Definition isSome {T : Type} (o : option T) : bool :=
  match o with Some _ => true | None => false end.

(** [appState === AppState.IDLE ? renderIdleContent()
                                : renderResultContent()] *)
Definition idleContent (a : App) : bool := AppState_eqb (appState a) IDLE.

(** [inputMode === 'upload' ? <ImageUploader .../> : <form ...>] *)
Definition uploaderRendered (a : App) : bool :=
  idleContent a && match inputMode a with upload => true | text => false end.

Definition formRendered (a : App) : bool :=
  idleContent a && match inputMode a with upload => false | text => true end.

(** [disabled={appState !== AppState.IDLE}] *)
Definition uploaderDisabled (a : App) : bool :=
  negb (AppState_eqb (appState a) IDLE).

(** [disabled={appState === AppState.ANALYZING}] *)
Definition textareaDisabled (a : App) : bool :=
  AppState_eqb (appState a) ANALYZING.

(** [disabled={appState === AppState.ANALYZING || !textProblem.trim()}] *)
Definition submitDisabled (a : App) : bool :=
  AppState_eqb (appState a) ANALYZING
  || negb (JsString.truthy (JsString.trim (textProblem a))).

(** [appState === AppState.CROPPING && imageToCrop && <ImageCropModal/>] *)
Definition modalRendered (a : App) : bool :=
  AppState_eqb (appState a) CROPPING && isSome (imageToCrop a).

(** [disabled={isProcessing}] *)
Definition cancelDisabled (m : Modal) : bool := isProcessing m.

(** [disabled={!completedCrop || isProcessing}] *)
Definition confirmDisabled (m : Modal) : bool :=
  negb (isSome (completedCrop m)) || isProcessing m.

(** [(appState === SUCCESS || appState === ERROR) && <button/>] *)
Definition resetRendered (a : App) : bool :=
  AppState_eqb (appState a) SUCCESS || AppState_eqb (appState a) ERROR.

End View.

(** What can happen to a session: the user acts on a control, the
    browser reports on the crop preview, or the solve call settles. *)
Inductive Event : Type :=
| TabClicked (m : InputMode)
| FileOffered (f : option File)         (* file picked or dropped *)
| TextTyped (s : string)
| FormSubmitted
| ImageRendered (i : HTMLImageElement)  (* the preview is laid out *)
| CropCompleted (c : PixelCrop float)   (* ReactCrop's onComplete *)
| CropAndSolveClicked
| CancelClicked
| SolveAnotherClicked
| SolveSettled (o : Outcome).

(** The modal's own state lives while the modal is rendered. *)
Definition remount (before after : World) : World :=
  if View.modalRendered (app after) && View.modalRendered (app before)
  then after
  else withModal initialModal after.

(** A control that is not rendered or is disabled does nothing. *)
Definition dispatch (b : Browser) (w : World) (e : Event) : World :=
  let a := app w in
  match e with
  | TabClicked m =>
      if View.idleContent a
      then withApp {| appState := appState a; inputMode := m;
                      imageToCrop := imageToCrop a;
                      uploadedImage := uploadedImage a;
                      textProblem := textProblem a;
                      submittedText := submittedText a;
                      solution := solution a; error := error a |} w
      else w
  | FileOffered f =>
      if View.uploaderRendered a && negb (View.uploaderDisabled a)
      then handleFile f w else w
  | TextTyped s =>
      if View.formRendered a && negb (View.textareaDisabled a)
      then withApp {| appState := appState a; inputMode := inputMode a;
                      imageToCrop := imageToCrop a;
                      uploadedImage := uploadedImage a;
                      textProblem := s;
                      submittedText := submittedText a;
                      solution := solution a; error := error a |} w
      else w
  | FormSubmitted =>
      if View.formRendered a && negb (View.submitDisabled a)
      then handleTextSubmit w else w
  | ImageRendered i =>
      if View.modalRendered a
      then withModal {| completedCrop := completedCrop (modal w);
                        isProcessing := isProcessing (modal w);
                        imgRef := Some i |} w
      else w
  | CropCompleted c =>
      if View.modalRendered a
      then withModal {| completedCrop := Some c;
                        isProcessing := isProcessing (modal w);
                        imgRef := imgRef (modal w) |} w
      else w
  | CropAndSolveClicked =>
      if View.modalRendered a && negb (View.confirmDisabled (modal w))
      then handleConfirmCrop b w else w
  | CancelClicked =>
      if View.modalRendered a && negb (View.cancelDisabled (modal w))
      then handleReset w else w
  | SolveAnotherClicked =>
      if View.resetRendered a then handleReset w else w
  | SolveSettled o => settle o w
  end.

Definition step (b : Browser) (w : World) (e : Event) : World :=
  remount w (dispatch b w e).

Definition run (b : Browser) (w : World) (es : list Event) : World :=
  fold_left (step b) es w.

(** The worlds a session can be in. *)
Definition reachable (b : Browser) (w : World) : Prop :=
  exists es, w = run b initialWorld es.

(** *** A browser and inputs for running the model *)

(** A browser with a 2D context at density 2.  An empty bitmap is
    encoded as ["data:,"], as the canvas interface prescribes; the
    payload of any other bitmap is a fixed sample; every data URL can be
    fetched. *)
Definition sampleBrowser : Browser :=
  {| devicePixelRatio := 2%float;
     context2d := true;
     toDataURL := fun c type =>
       if (N.eqb (cv_width c) 0 || N.eqb (cv_height c) 0)%bool
       then "data:,"
       else "data:" ++ type ++ ";base64,/9j/4AAQ";
     fetchData := fun _ => true |}.


Definition samplePhoto : HTMLImageElement :=
  {| naturalWidth := 1920; naturalHeight := 1080;
     img_width := 640; img_height := 360; img_broken := false |}.

Definition sampleCrop : PixelCrop float :=
  {| crop_x := 10%float; crop_y := 20%float;
     crop_width := 100%float; crop_height := 50%float |}.

Definition fileA : File := {| file_name := "a.png"; file_type := "image/png" |}.
Definition fileB : File := {| file_name := "b.gif"; file_type := "image/gif" |}.



(** A 1920 by 1080 photo previewed 314 pixels wide, and the selection of
    the whole preview. *)
Definition narrowPreview : HTMLImageElement :=
  {| naturalWidth := 1920; naturalHeight := 1080;
     img_width := 314; img_height := 177; img_broken := false |}.

Definition wholePreview : PixelCrop float :=
  {| crop_x := 0%float; crop_y := 0%float;
     crop_width := 314%float; crop_height := 177%float |}.

(** Select a file, let the preview render, drag a selection, confirm. *)
Definition cropAndSolve (f : File) (c : PixelCrop float) : list Event :=
  [ FileOffered (Some f); ImageRendered samplePhoto; CropCompleted c;
    CropAndSolveClicked ].

(** Type a problem in the text tab and submit it. *)
Definition typeAndSubmit (problem : string) : list Event :=
  [ TabClicked text; TextTyped problem; FormSubmitted ].

(** Two image sessions in a row, each solved and then reset. *)
Definition twoImageSessions : list Event :=
  cropAndSolve fileA sampleCrop
  ++ [ SolveSettled (Responds "## Final Answer"); SolveAnotherClicked ]
  ++ cropAndSolve fileB sampleCrop
  ++ [ SolveSettled (Responds "## Final Answer"); SolveAnotherClicked ].

(** The world after an image was cropped and submitted, and the world
    after a problem was typed and submitted: a call is in flight. *)
Definition analyzingImage : World :=
  run sampleBrowser initialWorld (cropAndSolve fileA sampleCrop).

Definition analyzingText : World :=
  run sampleBrowser initialWorld (typeAndSubmit "2x+5=15").

(** *** The state machine, abstractly *)

(** The moves of the session: the state and the calls in flight before
    and after one event. *)
Inductive Move : AppState -> list Call -> AppState -> list Call -> Prop :=
| Stays st calls :
    Move st calls st calls
| SelectsImage calls :
    Move IDLE calls CROPPING calls
| SubmitsText calls problem :
    Move IDLE calls ANALYZING (calls ++ [TextCall problem])
| SubmitsCrop calls base64 mimeType :
    Move CROPPING calls ANALYZING (calls ++ [ImageCall base64 mimeType])
| CancelsCrop calls :
    Move CROPPING calls IDLE calls
| ResetsToIdle st calls :
    st = SUCCESS \/ st = ERROR -> Move st calls IDLE calls
| Settles st c calls st' :
    st' = SUCCESS \/ st' = ERROR -> Move st (c :: calls) st' calls.

(** What holds of every world a session can be in: a call is in flight
    exactly in [ANALYZING], and then only one; the modal holds no state
    while it is not rendered. *)
Definition Inv (w : World) : Prop :=
  (appState (app w) = ANALYZING -> List.length (inflight w) = 1)
  /\ (appState (app w) <> ANALYZING -> inflight w = [])
  /\ (View.modalRendered (app w) = false -> modal w = initialModal).

(* ================================================================= *)
(** ** What a reachable session looks like *)

(** The URLs the state refers to: the cropped preview shown in the result
    panel and the image shown in the crop modal. *)
Definition held (a : App) : list Url :=
  (match uploadedImage a with Some u => [u] | None => [] end
   ++ match imageToCrop a with Some (_, u) => [u] | None => [] end)%list.

(** A registry [r] in order, for a state that refers to the URLs [h] and
    with the URLs [keep] set aside: URLs are handed out in sequence, none
    is revoked twice, the state refers to distinct URLs that are not
    revoked, and the URLs of [keep] are neither revoked nor referred
    to. *)
Definition RegOK (r : UrlRegistry) (h keep : list Url) : Prop :=
  created r = seq 0 (next_url r)
  /\ NoDup (revoked r)
  /\ (forall u, In u (revoked r) -> u < next_url r)
  /\ NoDup h
  /\ (forall u, In u h -> u < next_url r /\ ~ In u (revoked r))
  /\ (forall u, In u keep ->
        u < next_url r /\ ~ In u (revoked r) /\ ~ In u h).

Definition UrlInv (keep : list Url) (w : World) : Prop :=
  RegOK (urls w) (held (app w)) keep.

(** The request shown in the result panel: a cropped image or a typed
    problem, never both and never neither. *)
Definition Origin (a : App) : Prop :=
  (exists u, uploadedImage a = Some u /\ submittedText a = None)
  \/ (uploadedImage a = None
      /\ exists t, submittedText a = Some t /\ JsString.trim t <> "").

(** Which cells are filled in which state. *)
Definition Coherent (a : App) (calls : list Call) : Prop :=
  match appState a with
  | IDLE =>
      imageToCrop a = None /\ uploadedImage a = None
      /\ submittedText a = None /\ solution a = None /\ error a = None
  | CROPPING =>
      (exists f u, imageToCrop a = Some (f, u)
                   /\ JsString.startsWith "image/" (file_type f) = true)
      /\ uploadedImage a = None
      /\ submittedText a = None /\ solution a = None /\ error a = None
  | ANALYZING =>
      imageToCrop a = None /\ solution a = None /\ error a = None
      /\ ((exists u d, uploadedImage a = Some u /\ submittedText a = None
                       /\ calls = [ImageCall d "image/jpeg"])
          \/ (exists t, uploadedImage a = None /\ submittedText a = Some t
                        /\ JsString.trim t <> ""
                        /\ calls = [TextCall t]))
  | SUCCESS =>
      imageToCrop a = None /\ Origin a
      /\ (exists s, solution a = Some s) /\ error a = None
  | ERROR =>
      imageToCrop a = None /\ Origin a
      /\ solution a = None /\ (exists m, error a = Some m /\ m <> "")
  end.

(** The world in which a selection of image A is completed and waits for
    its confirmation. *)
Definition croppingA : World :=
  run sampleBrowser initialWorld
    [ FileOffered (Some fileA); ImageRendered samplePhoto;
      CropCompleted sampleCrop ].


(* ================================================================= *)
(** ** The solution text before rendering: [MarkdownRenderer.tsx] *)

Module MarkdownRenderer.

Definition LF : ascii := "010"%char.

(** [\d] *)
Definition isDigit (c : ascii) : bool :=
  let n := nat_of_ascii c in Nat.leb 48 n && Nat.leb n 57.

(** [\S] *)
Definition nonSpace (c : ascii) : bool := negb (JsString.isWhiteSpace c).

(** The second group of each pattern, matched at the head of [s]: the
    length of the match, if there is one.  [##\s] *)
Definition heading (s : string) : option nat :=
  match s with
  | String a (String b (String c _)) =>
      if Ascii.eqb a "#" && Ascii.eqb b "#" && JsString.isWhiteSpace c
      then Some 3 else None
  | _ => None
  end.

(** The digits [\d+] takes: it is greedy, and giving a digit back never
    helps, since the next character must be the dot. *)
Fixpoint digits (s : string) : nat :=
  match s with
  | String c s' => if isDigit c then S (digits s') else 0
  | EmptyString => 0
  end.

(** [\d+\.\s] *)
Definition numbered (s : string) : option nat :=
  match digits s with
  | 0 => None
  | k =>
      match JsString.drop k s with
      | String a (String c _) =>
          if Ascii.eqb a "." && JsString.isWhiteSpace c
          then Some (k + 2) else None
      | _ => None
      end
  end.

(** [\*\s|\-\s] *)
Definition bullet (s : string) : option nat :=
  match s with
  | String a (String c _) =>
      if (Ascii.eqb a "*" || Ascii.eqb a "-") && JsString.isWhiteSpace c
      then Some 2 else None
  | _ => None
  end.

(** [s.replace(/(\S)(M)/g, '$1\n$2')] for a marker pattern [M]: the
    string is scanned from the left; where a character that is not white
    space is followed by the marker, a line feed is put between them and
    the scan resumes after the marker ([skip] counts the characters of
    the marker still to be copied); elsewhere the character is copied. *)
Fixpoint breakBefore (marker : string -> option nat) (skip : nat)
    (s : string) : string :=
  match s with
  | EmptyString => EmptyString
  | String c s' =>
      match skip with
      | S k => String c (breakBefore marker k s')
      | O =>
          if nonSpace c
          then match marker s' with
               | Some n => String c (String LF (breakBefore marker n s'))
               | None => String c (breakBefore marker 0 s')
               end
          else String c (breakBefore marker 0 s')
      end
  end.

(** [preprocessedContent] *)
Definition preprocess (content : string) : string :=
  breakBefore bullet 0
    (breakBefore numbered 0 (breakBefore heading 0 content)).

(** [t] is [s] with line feeds inserted. *)
Inductive InsertsLF : string -> string -> Prop :=
| ins_nil : InsertsLF "" ""
| ins_keep c s t : InsertsLF s t -> InsertsLF (String c s) (String c t)
| ins_lf s t : InsertsLF s t -> InsertsLF s (String LF t).

(** No character of [s] is white space. *)
Fixpoint noSpace (s : string) : bool :=
  match s with
  | EmptyString => true
  | String c s' => nonSpace c && noSpace s'
  end.

(** A marker pattern reads no further than the first white space: up to
    there it decides alike whatever follows, and a match ends there at
    the latest.  The empty string holds no marker. *)
Definition EndsAtSpace (marker : string -> option nat) : Prop :=
  marker "" = None
  /\ forall q w t, JsString.isWhiteSpace w = true ->
       marker (q ++ String w t) = marker (q ++ String w "")
       /\ forall n, marker (q ++ String w "") = Some n ->
                    n <= String.length q + 1.

End MarkdownRenderer.

(* ================================================================= *)
(** ** The uploader on its own: [ImageUploader.tsx] *)

Module ImageUploader.

(** What a handler of the uploader does to its surroundings: it hands a
    file to [onImageSelect], or it raises the alert. *)
Inductive Effect : Type :=
| Selected (f : File)
| Alerted.

(** The events of the drop zone and of the file input, each with the
    files it carries ([e.target.files], [e.dataTransfer.files]). *)
Inductive DomEvent : Type :=
| Change (files : list File)
| DragOver
| DragLeave
| Drop (files : list File).

(** The component: its [isDragging] cell and the effects it has had. *)
Record Uploader : Type := {
  isDragging : bool;
  effects : list Effect
}.

(** [handleFile] *)
Definition handleFile (file : option File) : Effect :=
  match file with
  | Some f =>
      if JsString.startsWith "image/" (file_type f)
      then Selected f else Alerted
  | None => Alerted
  end.

(** [handleFileChange] *)
Definition handleFileChange (files : list File) (u : Uploader) : Uploader :=
  match files with
  | f :: _ => {| isDragging := isDragging u;
                 effects := effects u ++ [handleFile (Some f)] |}
  | [] => u
  end.

(** [handleDragOver] *)
Definition handleDragOver (disabled : bool) (u : Uploader) : Uploader :=
  if negb disabled
  then {| isDragging := true; effects := effects u |}
  else u.

(** [handleDragLeave] *)
Definition handleDragLeave (u : Uploader) : Uploader :=
  {| isDragging := false; effects := effects u |}.

(** [handleDrop] *)
Definition handleDrop (disabled : bool) (files : list File) (u : Uploader)
  : Uploader :=
  let u := {| isDragging := false; effects := effects u |} in
  match files with
  | f :: _ =>
      if negb disabled
      then {| isDragging := isDragging u;
              effects := effects u ++ [handleFile (Some f)] |}
      else u
  | [] => u
  end.

(** One event, handed to its handler. *)
Definition react (disabled : bool) (u : Uploader) (e : DomEvent) : Uploader :=
  match e with
  | Change files => handleFileChange files u
  | DragOver => handleDragOver disabled u
  | DragLeave => handleDragLeave u
  | Drop files => handleDrop disabled files u
  end.

Definition initial : Uploader := {| isDragging := false; effects := [] |}.

End ImageUploader.

(* ================================================================= *)
(** * Properties *)

(** ** Strings *)

Lemma prefix_app (p s : string) : String.prefix p (p ++ s) = true.
Proof.
  induction p as [|c p IH]; simpl.
  - destruct s; reflexivity.
  - destruct (ascii_dec c c) as [_|Hne]; [exact IH | congruence].
Qed.

Lemma drop_app (p s : string) : JsString.drop (String.length p) (p ++ s) = s.
Proof.
  induction p as [|c p IH]; simpl.
  - destruct s; reflexivity.
  - exact IH.
Qed.

Lemma replace_unfold (pat rep s : string) :
  JsString.replace pat rep s =
  if String.prefix pat s then rep ++ JsString.drop (String.length pat) s
  else match s with
       | EmptyString => EmptyString
       | String c s' => String c (JsString.replace pat rep s')
       end.
Proof. destruct s; reflexivity. Qed.

(** Replacing a pattern the string starts with removes that prefix. *)
Lemma replace_leading (pat rep s : string) :
  JsString.replace pat rep (pat ++ s) = rep ++ s.
Proof.
  rewrite replace_unfold, prefix_app, drop_app. reflexivity.
Qed.

(** ** The solve continuation *)

(** A string tagged ["Error: "] ends in [ERROR] with the rest of the
    string as the message, or with the fallback when nothing follows. *)
Lemma afterSolve_tagged (rest : string) (a : App) :
  afterSolve ("Error: " ++ rest) a = catchError rest a.
Proof.
  unfold afterSolve.
  replace (JsString.startsWith "Error:" ("Error: " ++ rest)) with true
    by reflexivity.
  rewrite replace_leading. reflexivity.
Qed.

Lemma afterSolve_untagged (result : string) (a : App) :
  JsString.startsWith "Error:" result = false ->
  appState (afterSolve result a) = SUCCESS
  /\ solution (afterSolve result a) = Some result
  /\ error (afterSolve result a) = error a
  /\ submittedText (afterSolve result a) = submittedText a
  /\ uploadedImage (afterSolve result a) = uploadedImage a.
Proof.
  intros Htag. unfold afterSolve. rewrite Htag. simpl. auto.
Qed.

(** The message of [ERROR] is never empty. *)
Lemma catchError_message (message : string) (a : App) :
  exists m, error (catchError message a) = Some m /\ m <> "".
Proof.
  unfold catchError; simpl.
  destruct message as [|c message]; simpl; eexists; split;
    try reflexivity; discriminate.
Qed.

(** A thrown [Error] reaches [ERROR], with its message when it has one. *)
Lemma settle_ThrowsError (w : World) (c : Call) (rest : list Call)
    (message : string) :
  inflight w = c :: rest ->
  app (settle (ThrowsError message) w) = catchError message (app w).
Proof.
  intros Hin. unfold settle. rewrite Hin.
  destruct c; simpl;
    unfold geminiService.solveMathProblemFromImage,
           geminiService.solveMathProblemFromText;
    apply afterSolve_tagged.
Qed.

(** C1: when [generateContent] throws a value that is not an [Error], the
    service returns its fallback sentence without the ["Error:"] tag, and
    the continuation stores that sentence as the solution and moves the
    session to [SUCCESS]: the failure does not reach [ERROR]. *)
Theorem C1_untagged_fallback_reaches_SUCCESS
    (w : World) (c : Call) (rest : list Call) :
  inflight w = c :: rest ->
  appState (app (settle ThrowsOther w)) = SUCCESS
  /\ error (app (settle ThrowsOther w)) = error (app w)
  /\ solution (app (settle ThrowsOther w)) =
       Some (match c with
             | ImageCall _ _ =>
                 "An unknown error occurred while analyzing the image."
             | TextCall _ =>
                 "An unknown error occurred while solving the problem."
             end).
Proof.
  intros Hin. unfold settle. rewrite Hin.
  destruct c; simpl; auto.
Qed.

Lemma C1_untagged_fallback_witness :
  inflight analyzingImage = [ImageCall (Some "/9j/4AAQ") "image/jpeg"]
  /\ appState (app analyzingImage) = ANALYZING
  /\ appState (app (settle ThrowsOther analyzingImage)) = SUCCESS
  /\ solution (app (settle ThrowsOther analyzingImage)) =
       Some "An unknown error occurred while analyzing the image.".
Proof.
  split; [reflexivity|]. split; [reflexivity|].
  destruct (C1_untagged_fallback_reaches_SUCCESS analyzingImage
              (ImageCall (Some "/9j/4AAQ") "image/jpeg") [])
    as (Hs & _ & Hsol).
  - reflexivity.
  - split; [exact Hs | exact Hsol].
Defined.

(** ** Object URLs *)

(** Confirming a crop creates the URL of the cropped preview and revokes
    nothing, although it clears [imageToCrop]. *)
Lemma handleCropConfirm_revokes_nothing
    (b : Browser) (base64 : option string) (mimeType : string) (w : World) :
  revoked (urls (handleCropConfirm b base64 mimeType w)) = revoked (urls w)
  /\ (fetchData b (dataUrl base64 mimeType) = true ->
      imageToCrop (app (handleCropConfirm b base64 mimeType w)) = None).
Proof.
  unfold handleCropConfirm.
  destruct (fetchData b (dataUrl base64 mimeType)); simpl.
  - split; reflexivity.
  - split; [reflexivity | discriminate].
Qed.

(** Reset revokes the URLs the state still holds, and only those. *)
Lemma handleReset_revokes (w : World) :
  revoked (urls (handleReset w)) =
    (revoked (urls w)
     ++ match uploadedImage (app w) with Some u => [u] | None => [] end
     ++ match imageToCrop (app w) with Some (_, u) => [u] | None => [] end)%list.
Proof.
  unfold handleReset; simpl.
  destruct (uploadedImage (app w)) as [u|];
    destruct (imageToCrop (app w)) as [[f v]|]; simpl;
    rewrite <- ?app_assoc, ?app_nil_r; reflexivity.
Qed.

(** C2: over two image sessions, each cropped, solved and reset, four
    URLs are created (0 and 2 for the source images, 1 and 3 for the
    cropped previews); the two preview URLs are revoked once each by the
    resets, the two source-image URLs are never revoked and stay live. *)
Theorem C2_source_image_urls_stay_live :
  created (urls (run sampleBrowser initialWorld twoImageSessions))
    = [0; 1; 2; 3]
  /\ revoked (urls (run sampleBrowser initialWorld twoImageSessions))
    = [1; 3]
  /\ live (urls (run sampleBrowser initialWorld twoImageSessions)) = [0; 2]
  /\ releases (urls (run sampleBrowser initialWorld twoImageSessions)) 0 = 0
  /\ releases (urls (run sampleBrowser initialWorld twoImageSessions)) 2 = 0
  /\ appState (app (run sampleBrowser initialWorld twoImageSessions)) = IDLE.
Proof. vm_compute. repeat split; reflexivity. Qed.

(** ** The error tag *)

(** C7, at the bare tag: the text ["Error: "] has an empty remainder, and
    the message of [ERROR] is then the fallback sentence, not that
    remainder. *)
Lemma C7_bare_tag_gets_fallback_message :
  appState (app (settle (Responds "Error: ") analyzingImage)) = ERROR
  /\ error (app (settle (Responds "Error: ") analyzingImage))
       = Some "An unexpected error occurred."
  /\ error (app (settle (Responds "Error: ") analyzingImage)) <> Some "".
Proof. repeat split; [reflexivity.. | discriminate]. Qed.

(** C7, amended: when the solve call completes with ["Error: "] followed
    by [rest], the session moves to [ERROR]; its message is [rest] when
    [rest] is not empty and the fallback sentence otherwise.  A response
    ["Error: rate limited"] to an image submission gives the message
    ["rate limited"]. *)
Theorem C7_tagged_text_reaches_ERROR
    (w : World) (c : Call) (calls : list Call) (rest : string) :
  inflight w = c :: calls ->
  appState (app (settle (Responds ("Error: " ++ rest)) w)) = ERROR
  /\ error (app (settle (Responds ("Error: " ++ rest)) w)) =
       Some (if JsString.truthy rest then rest
             else "An unexpected error occurred.")
  /\ (rest <> "" ->
      error (app (settle (Responds ("Error: " ++ rest)) w)) = Some rest)
  /\ error (app (settle (Responds "Error: rate limited") analyzingImage))
       = Some "rate limited".
Proof.
  intros Hin.
  assert (Happ : app (settle (Responds ("Error: " ++ rest)) w)
                 = catchError rest (app w)).
  { unfold settle. rewrite Hin.
    destruct c; simpl;
      unfold geminiService.solveMathProblemFromImage,
             geminiService.solveMathProblemFromText;
      apply afterSolve_tagged. }
  rewrite Happ. repeat split.
  intros Hne. unfold catchError; simpl.
  destruct rest; [congruence | reflexivity].
Qed.

Lemma C7_tagged_text_witness :
  inflight analyzingImage = [ImageCall (Some "/9j/4AAQ") "image/jpeg"]
  /\ appState (app (settle (Responds "Error: rate limited") analyzingImage))
       = ERROR
  /\ error (app (settle (Responds "Error: rate limited") analyzingImage))
       = Some "rate limited".
Proof.
  split; [reflexivity|].
  destruct (C7_tagged_text_reaches_ERROR analyzingImage
              (ImageCall (Some "/9j/4AAQ") "image/jpeg") [] "rate limited")
    as (Hs & He & _).
  - reflexivity.
  - split; [exact Hs | exact He].
Defined.

(** ** The crop *)

(** With a 2D context the crop is always rendered, whatever the
    selection: the canvas is sized, scaled, set to high smoothing and
    receives one blit. *)
Lemma renderCrop_with_context (b : Browser) (image : HTMLImageElement)
    (crop : PixelCrop float) :
  context2d b = true ->
  renderCrop b image crop =
    Some {| cv_width :=
              reflected 300
                (toUnsignedLong
                   (crop_width crop * orElse (devicePixelRatio b) 1)%float);
            cv_height :=
              reflected 150
                (toUnsignedLong
                   (crop_height crop * orElse (devicePixelRatio b) 1)%float);
            cv_transform :=
              {| m_a := orElse (devicePixelRatio b) 1; m_b := 0; m_c := 0;
                 m_d := orElse (devicePixelRatio b) 1; m_e := 0; m_f := 0 |};
            cv_imageSmoothingQuality := high;
            cv_blits :=
              [ {| blit_src := sourceRect image crop;
                   blit_dst := {| crop_x := 0%float; crop_y := 0%float;
                                  crop_width := crop_width crop;
                                  crop_height := crop_height crop |};
                   blit_ctm :=
                     {| m_a := orElse (devicePixelRatio b) 1;
                        m_b := 0; m_c := 0;
                        m_d := orElse (devicePixelRatio b) 1;
                        m_e := 0; m_f := 0 |} |} ] |}.
Proof.
  intros Hctx. unfold renderCrop, render, drawImage. rewrite Hctx. simpl.
  destruct (img_broken image); reflexivity.
Qed.

Lemma renderCrop_without_context (b : Browser) (image : HTMLImageElement)
    (crop : PixelCrop float) :
  context2d b = false -> renderCrop b image crop = None.
Proof.
  intros Hctx. unfold renderCrop, render. rewrite Hctx. reflexivity.
Qed.

(** What the crop answers: rejected without a 2D context and when
    [drawImage] throws, resolved with the encoding otherwise. *)
Lemma getCroppedImg_cases (b : Browser) (image : HTMLImageElement)
    (crop : PixelCrop float) (fileType : string) :
  (context2d b = false ->
   getCroppedImg b image crop fileType
     = Rejected "Could not get canvas context.")
  /\ (context2d b = true -> img_broken image = true ->
      getCroppedImg b image crop fileType = Rejected "InvalidStateError")
  /\ (context2d b = true -> img_broken image = false ->
      exists canvas,
        renderCrop b image crop = Some canvas
        /\ getCroppedImg b image crop fileType
             = Resolved (toDataURL b canvas fileType)).
Proof.
  unfold getCroppedImg, renderCrop, render, drawImage.
  split; [|split]; intros Hctx; rewrite Hctx; simpl.
  - reflexivity.
  - intros ->. reflexivity.
  - intros ->. eexists. split; reflexivity.
Qed.

(** C4: for a preview of positive size and any selection, the rectangle
    the crop samples is exactly [x * scaleX, y * scaleY, width * scaleX,
    height * scaleY] with [scaleX = naturalWidth / width] and
    [scaleY = naturalHeight / height]: the horizontal quantities use only
    [scaleX], the vertical ones only [scaleY].  The mapping is a function
    of the image and the selection alone and acts on nothing but the
    canvas the crop has created. *)
Theorem C4_source_rectangle_is_the_scaled_selection
    (b : Browser) (image : HTMLImageElement) (crop : PixelCrop float) :
  (0 < img_width image)%N ->
  (0 < img_height image)%N ->
  context2d b = true ->
  exists canvas,
    renderCrop b image crop = Some canvas
    /\ map blit_src (cv_blits canvas) =
       [ {| crop_x :=
              (crop_x crop *
               (of_uint (naturalWidth image) / of_uint (img_width image)))
              %float;
            crop_y :=
              (crop_y crop *
               (of_uint (naturalHeight image) / of_uint (img_height image)))
              %float;
            crop_width :=
              (crop_width crop *
               (of_uint (naturalWidth image) / of_uint (img_width image)))
              %float;
            crop_height :=
              (crop_height crop *
               (of_uint (naturalHeight image) / of_uint (img_height image)))
              %float |} ].
Proof.
  intros _ _ Hctx.
  eexists. split.
  - apply renderCrop_with_context. exact Hctx.
  - reflexivity.
Qed.

Lemma C4_source_rectangle_witness :
  exists canvas,
    renderCrop sampleBrowser samplePhoto sampleCrop = Some canvas
    /\ map blit_src (cv_blits canvas) =
       [ {| crop_x := 30%float; crop_y := 60%float;
            crop_width := 300%float; crop_height := 150%float |} ].
Proof.
  destruct (C4_source_rectangle_is_the_scaled_selection
              sampleBrowser samplePhoto sampleCrop)
    as (canvas & Hr & Hsrc).
  - reflexivity.
  - reflexivity.
  - reflexivity.
  - exists canvas. split; [exact Hr | exact Hsrc].
Defined.




(** Whole pixels of a product: exact when the product is whole,
    truncated otherwise. *)
Example toUnsignedLong_samples :
  toUnsignedLong (100 * 2)%float = 200%N
  /\ toUnsignedLong (33.5 * 1.5)%float = 50%N
  /\ toUnsignedLong (0 * 2)%float = 0%N.
Proof. repeat split; reflexivity. Qed.




(** C6, in the arithmetic the code runs: the selection of the whole
    314-pixel preview of a 1920-pixel image is in bounds, and its mapped
    right edge, [314 * (1920 / 314)] in binary64, lies above 1920. *)
Lemma C6_whole_preview_maps_past_the_natural_width :
  (0 < img_width narrowPreview)%N
  /\ (0 < img_height narrowPreview)%N
  /\ (0 <=? crop_x wholePreview)%float = true
  /\ (0 <=? crop_y wholePreview)%float = true
  /\ (crop_x wholePreview + crop_width wholePreview
      <=? of_uint (img_width narrowPreview))%float = true
  /\ (crop_y wholePreview + crop_height wholePreview
      <=? of_uint (img_height narrowPreview))%float = true
  /\ (0 <? crop_width wholePreview)%float = true
  /\ (0 <? crop_height wholePreview)%float = true
  /\ (of_uint (naturalWidth narrowPreview)
      <? crop_x (sourceRect narrowPreview wholePreview)
         + crop_width (sourceRect narrowPreview wholePreview))%float = true
  /\ (of_uint (naturalWidth narrowPreview)
      <? crop_width (sourceRect narrowPreview wholePreview))%float = true.
Proof. vm_compute. repeat split; reflexivity. Qed.

(** Reading an [unsigned long] as a rational. *)
Lemma of_uint_nonneg (n : N) : (0 <= of_uint (num := Q) n)%Q.
Proof. unfold Qle; simpl. lia. Qed.

Lemma of_uint_pos (n : N) : (0 < n)%N -> (0 < of_uint (num := Q) n)%Q.
Proof. intros Hn. unfold Qlt; simpl. lia. Qed.

(** In exact arithmetic a scale factor [n / d] with [d] positive is not
    negative and gives [n] back when multiplied by [d]. *)
Lemma scale_nonneg (n d : N) :
  (0 < d)%N -> (0 <= of_uint (num := Q) n / of_uint (num := Q) d)%Q.
Proof.
  intros Hd. apply Qle_shift_div_l.
  - apply of_uint_pos; exact Hd.
  - rewrite Qmult_0_l. apply of_uint_nonneg.
Qed.

Lemma scale_cancel (n d : N) :
  (0 < d)%N ->
  (of_uint (num := Q) d * (of_uint (num := Q) n / of_uint (num := Q) d)
   == of_uint (num := Q) n)%Q.
Proof.
  intros Hd. apply Qmult_div_r.
  intros Heq. pose proof (of_uint_pos d Hd) as Hpos.
  rewrite Heq in Hpos. exact (Qlt_irrefl 0 Hpos).
Qed.

(** An interval [[p, p + l]] inside [[0, d]] is mapped by a scale
    [s >= 0] with [d * s == n] to an interval inside [[0, n]]. *)
Lemma scaled_interval (p l d s n : Q) :
  (0 <= s)%Q -> (d * s == n)%Q ->
  (0 <= p)%Q -> (0 < l)%Q -> (p + l <= d)%Q ->
  (0 <= p * s)%Q /\ (0 <= l * s)%Q /\ (p * s + l * s <= n)%Q.
Proof.
  intros Hs Hds Hp Hl Hpl.
  split; [apply Qmult_le_0_compat; assumption|].
  split; [apply Qmult_le_0_compat; [apply Qlt_le_weak|]; assumption|].
  rewrite <- Hds, <- Qmult_plus_distr_l.
  apply Qmult_le_compat_r; assumption.
Qed.

(** C6, amended: for a preview of positive size and a selection within
    it, the mapped rectangle, with its products taken in exact
    arithmetic, lies within [[0, naturalWidth]] by [[0, naturalHeight]];
    it is the bare products, nothing is clamped. *)
Theorem C6_exact_mapping_stays_within_the_image
    (image : HTMLImageElement) (crop : PixelCrop Q) :
  (0 < img_width image)%N ->
  (0 < img_height image)%N ->
  (0 <= crop_x crop)%Q ->
  (0 <= crop_y crop)%Q ->
  (crop_x crop + crop_width crop <= of_uint (img_width image))%Q ->
  (crop_y crop + crop_height crop <= of_uint (img_height image))%Q ->
  (0 < crop_width crop)%Q ->
  (0 < crop_height crop)%Q ->
  (0 <= crop_x (sourceRect image crop))%Q
  /\ (0 <= crop_y (sourceRect image crop))%Q
  /\ (0 <= crop_width (sourceRect image crop))%Q
  /\ (0 <= crop_height (sourceRect image crop))%Q
  /\ (crop_x (sourceRect image crop) + crop_width (sourceRect image crop)
      <= of_uint (naturalWidth image))%Q
  /\ (crop_y (sourceRect image crop) + crop_height (sourceRect image crop)
      <= of_uint (naturalHeight image))%Q
  /\ sourceRect image crop =
       {| crop_x := (crop_x crop * scaleX image)%Q;
          crop_y := (crop_y crop * scaleY image)%Q;
          crop_width := (crop_width crop * scaleX image)%Q;
          crop_height := (crop_height crop * scaleY image)%Q |}.
Proof.
  intros HW HH Hx Hy Hxw Hyh Hw Hh.
  destruct (scaled_interval _ _ _ _ _
              (scale_nonneg (naturalWidth image) _ HW)
              (scale_cancel (naturalWidth image) _ HW) Hx Hw Hxw)
    as (Hx0 & Hw0 & Hxb).
  destruct (scaled_interval _ _ _ _ _
              (scale_nonneg (naturalHeight image) _ HH)
              (scale_cancel (naturalHeight image) _ HH) Hy Hh Hyh)
    as (Hy0 & Hh0 & Hyb).
  repeat split; assumption.
Qed.

Lemma C6_exact_mapping_witness :
  (crop_x (sourceRect narrowPreview
             {| crop_x := 0%Q; crop_y := 0%Q;
                crop_width := 314%Q; crop_height := 177%Q |})
   + crop_width (sourceRect narrowPreview
                   {| crop_x := 0%Q; crop_y := 0%Q;
                      crop_width := 314%Q; crop_height := 177%Q |})
   <= 1920)%Q.
Proof.
  destruct (C6_exact_mapping_stays_within_the_image narrowPreview
              {| crop_x := 0%Q; crop_y := 0%Q;
                 crop_width := 314%Q; crop_height := 177%Q |})
    as (_ & _ & _ & _ & Hx & _).
  - reflexivity.
  - reflexivity.
  - vm_compute. discriminate.
  - vm_compute. discriminate.
  - vm_compute. discriminate.
  - vm_compute. discriminate.
  - reflexivity.
  - reflexivity.
  - exact Hx.
Defined.

(** ** The session *)

Lemma remount_app (w w' : World) : app (remount w w') = app w'.
Proof. unfold remount. destruct (_ && _); reflexivity. Qed.

Lemma remount_inflight (w w' : World) :
  inflight (remount w w') = inflight w'.
Proof. unfold remount. destruct (_ && _); reflexivity. Qed.

Lemma remount_urls (w w' : World) : urls (remount w w') = urls w'.
Proof. unfold remount. destruct (_ && _); reflexivity. Qed.

Lemma remount_modal (w w' : World) :
  View.modalRendered (app (remount w w')) = false ->
  modal (remount w w') = initialModal.
Proof.
  unfold remount.
  destruct (View.modalRendered (app w')) eqn:E; simpl.
  - destruct (View.modalRendered (app w)); simpl; congruence.
  - reflexivity.
Qed.

Lemma idleContent_true (a : App) :
  View.idleContent a = true -> appState a = IDLE.
Proof.
  unfold View.idleContent. destruct (appState a); simpl; congruence.
Qed.

Lemma modalRendered_true (a : App) :
  View.modalRendered a = true ->
  appState a = CROPPING /\ exists f u, imageToCrop a = Some (f, u).
Proof.
  unfold View.modalRendered.
  destruct (appState a); simpl; try discriminate.
  destruct (imageToCrop a) as [[f u]|]; simpl; try discriminate.
  intros _. split; [reflexivity | exists f, u; reflexivity].
Qed.

Lemma resetRendered_true (a : App) :
  View.resetRendered a = true -> appState a = SUCCESS \/ appState a = ERROR.
Proof.
  unfold View.resetRendered.
  destruct (appState a); simpl; try discriminate; auto.
Qed.

Lemma afterSolve_state (result : string) (a : App) :
  appState (afterSolve result a) = SUCCESS
  \/ appState (afterSolve result a) = ERROR.
Proof.
  unfold afterSolve.
  destruct (JsString.startsWith "Error:" result); simpl; auto.
Qed.

Lemma afterAwait_state (result : option string) (a : App) :
  appState (afterAwait result a) = SUCCESS
  \/ appState (afterAwait result a) = ERROR.
Proof.
  destruct result as [r|]; simpl; [apply afterSolve_state | auto].
Qed.

(** Every event is one of the moves. *)
Lemma dispatch_moves (b : Browser) (w : World) (e : Event) :
  Move (appState (app w)) (inflight w)
       (appState (app (dispatch b w e))) (inflight (dispatch b w e)).
Proof.
  destruct e; unfold dispatch.
  - (* TabClicked *)
    destruct (View.idleContent (app w)); simpl; apply Stays.
  - (* FileOffered *)
    destruct (View.uploaderRendered (app w)) eqn:Hr; simpl;
      [|apply Stays].
    destruct (negb (View.uploaderDisabled (app w))); simpl; [|apply Stays].
    unfold View.uploaderRendered in Hr.
    apply andb_prop in Hr. destruct Hr as (Hidle & _).
    apply idleContent_true in Hidle.
    unfold handleFile. destruct f as [f|]; [|apply Stays].
    destruct (JsString.startsWith "image/" (file_type f)); [|apply Stays].
    unfold handleImageSelect.
    destruct (imageToCrop (app w)) as [[f' u']|]; simpl;
      rewrite Hidle; apply SelectsImage.
  - (* TextTyped *)
    destruct (View.formRendered (app w) && _); simpl; apply Stays.
  - (* FormSubmitted *)
    destruct (View.formRendered (app w)) eqn:Hr; simpl; [|apply Stays].
    destruct (negb (View.submitDisabled (app w))); simpl; [|apply Stays].
    unfold View.formRendered in Hr.
    apply andb_prop in Hr. destruct Hr as (Hidle & _).
    apply idleContent_true in Hidle.
    unfold handleTextSubmit.
    destruct (negb (JsString.truthy (JsString.trim (textProblem (app w)))));
      simpl; [apply Stays|].
    rewrite Hidle. apply SubmitsText.
  - (* ImageRendered *)
    destruct (View.modalRendered (app w)); simpl; apply Stays.
  - (* CropCompleted *)
    destruct (View.modalRendered (app w)); simpl; apply Stays.
  - (* CropAndSolveClicked *)
    destruct (View.modalRendered (app w)) eqn:Hr; simpl; [|apply Stays].
    destruct (negb (View.confirmDisabled (modal w))); simpl; [|apply Stays].
    apply modalRendered_true in Hr. destruct Hr as (Hcrop & _).
    unfold handleConfirmCrop.
    destruct (completedCrop (modal w)) as [crop|]; [|apply Stays].
    destruct (imgRef (modal w)) as [image|]; [|apply Stays].
    destruct (getCroppedImg b image crop "image/jpeg") as [data|message];
      simpl; [|apply Stays].
    unfold handleCropConfirm.
    destruct (fetchData b _); simpl; [|apply Stays].
    rewrite Hcrop. apply SubmitsCrop.
  - (* CancelClicked *)
    destruct (View.modalRendered (app w)) eqn:Hr; simpl; [|apply Stays].
    destruct (negb (View.cancelDisabled (modal w))); simpl; [|apply Stays].
    apply modalRendered_true in Hr. destruct Hr as (Hcrop & _).
    rewrite Hcrop. apply CancelsCrop.
  - (* SolveAnotherClicked *)
    destruct (View.resetRendered (app w)) eqn:Hr; simpl; [|apply Stays].
    apply ResetsToIdle. apply resetRendered_true. exact Hr.
  - (* SolveSettled *)
    unfold settle. destruct (inflight w) as [|c calls] eqn:Hin.
    + rewrite Hin. apply Stays.
    + simpl. apply Settles. apply afterAwait_state.
Qed.

Lemma step_moves (b : Browser) (w : World) (e : Event) :
  Move (appState (app w)) (inflight w)
       (appState (app (step b w e))) (inflight (step b w e)).
Proof.
  unfold step. rewrite remount_app, remount_inflight. apply dispatch_moves.
Qed.

(** A move keeps the calls in flight in step with the state. *)
Lemma Move_keeps_calls (st st' : AppState) (calls calls' : list Call) :
  Move st calls st' calls' ->
  (st = ANALYZING -> List.length calls = 1) ->
  (st <> ANALYZING -> calls = []) ->
  (st' = ANALYZING -> List.length calls' = 1)
  /\ (st' <> ANALYZING -> calls' = []).
Proof.
  intros Hmove Hone Hnone.
  inversion Hmove; subst.
  - split; assumption.
  - split; [discriminate | intros _; apply Hnone; discriminate].
  - rewrite (Hnone ltac:(discriminate)). split; [reflexivity | congruence].
  - rewrite (Hnone ltac:(discriminate)). split; [reflexivity | congruence].
  - split; [discriminate | intros _; apply Hnone; discriminate].
  - split; [discriminate|]. intros _. apply Hnone.
    destruct H as [-> | ->]; discriminate.
  - assert (calls' = []) as ->.
    { destruct (AppState_eqb st ANALYZING) eqn:E.
      - destruct st; try discriminate.
        specialize (Hone eq_refl). simpl in Hone.
        destruct calls'; [reflexivity | discriminate].
      - assert (Hst : st <> ANALYZING) by (intros ->; discriminate).
        specialize (Hnone Hst). discriminate. }
    split; [|reflexivity].
    destruct H as [-> | ->]; discriminate.
Qed.

Lemma step_Inv (b : Browser) (w : World) (e : Event) :
  Inv w -> Inv (step b w e).
Proof.
  intros (Hone & Hnone & _).
  destruct (Move_keeps_calls _ _ _ _ (step_moves b w e) Hone Hnone)
    as (Hone' & Hnone').
  split; [exact Hone'|]. split; [exact Hnone'|].
  unfold step. apply remount_modal.
Qed.

Lemma initialWorld_Inv : Inv initialWorld.
Proof.
  split; [discriminate|]. split; reflexivity.
Qed.

Lemma run_Inv (b : Browser) (es : list Event) (w : World) :
  Inv w -> Inv (run b w es).
Proof.
  revert w. induction es as [|e es IH]; intros w Hw; simpl.
  - exact Hw.
  - apply IH. apply step_Inv. exact Hw.
Qed.

Lemma reachable_Inv (b : Browser) (w : World) : reachable b w -> Inv w.
Proof.
  intros (es & ->). apply run_Inv. apply initialWorld_Inv.
Qed.

Lemma World_eta (w : World) :
  w = {| app := app w; modal := modal w; urls := urls w;
         inflight := inflight w |}.
Proof. destruct w; reflexivity. Qed.

(** An event that dispatches to nothing leaves a reachable world as it
    is. *)
Lemma remount_same (w : World) : Inv w -> remount w w = w.
Proof.
  intros (_ & _ & Hmodal). unfold remount.
  destruct (View.modalRendered (app w)) eqn:E; simpl; [reflexivity|].
  unfold withModal. rewrite <- (Hmodal eq_refl). symmetry. apply World_eta.
Qed.

(** C9: in every world a session can reach at most one solve call is in
    flight, and one is in flight exactly in [ANALYZING]; an event leads
    into [ANALYZING] only from [IDLE] or [CROPPING]; and in [ANALYZING]
    the uploader, the text area and the submit button are disabled (none
    of them nor the crop modal is even rendered), so that offering a
    file, typing, submitting the form or confirming a crop changes
    nothing. *)
Theorem C9_one_solve_call_in_flight (b : Browser) (w : World) :
  reachable b w ->
  List.length (inflight w) <= 1
  /\ (appState (app w) = ANALYZING <-> inflight w <> [])
  /\ (forall e,
        appState (app w) <> ANALYZING ->
        appState (app (step b w e)) = ANALYZING ->
        appState (app w) = IDLE \/ appState (app w) = CROPPING)
  /\ (appState (app w) = ANALYZING ->
      View.uploaderDisabled (app w) = true
      /\ View.textareaDisabled (app w) = true
      /\ View.submitDisabled (app w) = true
      /\ View.uploaderRendered (app w) = false
      /\ View.formRendered (app w) = false
      /\ View.modalRendered (app w) = false
      /\ (forall f, step b w (FileOffered f) = w)
      /\ (forall s, step b w (TextTyped s) = w)
      /\ step b w FormSubmitted = w
      /\ step b w CropAndSolveClicked = w).
Proof.
  intros Hreach. pose proof (reachable_Inv b w Hreach) as HInv.
  destruct HInv as (Hone & Hnone & Hmodal).
  assert (Hcases : appState (app w) = ANALYZING
                   \/ appState (app w) <> ANALYZING).
  { destruct (appState (app w)); auto; right; discriminate. }
  split; [|split; [|split]].
  - destruct Hcases as [Hst | Hst].
    + rewrite (Hone Hst). auto.
    + rewrite (Hnone Hst). simpl. auto.
  - split.
    + intros Hst Hnil. specialize (Hone Hst). rewrite Hnil in Hone.
      discriminate.
    + intros Hne. destruct Hcases as [Hst | Hst]; [exact Hst|].
      elim Hne. apply Hnone. exact Hst.
  - intros e Hst Hst'.
    pose proof (step_moves b w e) as Hmove. rewrite Hst' in Hmove.
    inversion Hmove; subst; auto; try congruence.
    match goal with
    | Hor : ANALYZING = SUCCESS \/ ANALYZING = ERROR |- _ =>
        destruct Hor; discriminate
    end.
  - intros Hst.
    assert (Hsame : remount w w = w).
    { apply remount_same. split; [|split]; assumption. }
    unfold step, dispatch.
    unfold View.uploaderDisabled, View.textareaDisabled,
      View.submitDisabled, View.uploaderRendered, View.formRendered,
      View.modalRendered, View.idleContent.
    rewrite Hst. simpl. repeat split; intros; exact Hsame.
Qed.

Lemma C9_one_solve_call_witness :
  List.length (inflight analyzingText) <= 1
  /\ inflight analyzingText = [TextCall "2x+5=15"]
  /\ step sampleBrowser analyzingText FormSubmitted = analyzingText
  /\ step sampleBrowser analyzingText (FileOffered (Some fileA))
     = analyzingText.
Proof.
  destruct (C9_one_solve_call_in_flight sampleBrowser analyzingText)
    as (Hlen & _ & _ & Hbusy).
  - exists (typeAndSubmit "2x+5=15"). reflexivity.
  - destruct (Hbusy eq_refl) as (_ & _ & _ & _ & _ & _ & Hfile & _ & Hform & _).
    split; [exact Hlen|]. split; [reflexivity|].
    split; [exact Hform | exact (Hfile (Some fileA))].
Defined.

(** Empty and white-space-only problems are blank. *)
Example trim_samples :
  JsString.trim "" = ""
  /\ JsString.trim "   " = ""
  /\ JsString.trim (String "009" (String "010" " ")) = ""
  /\ JsString.trim " 2x+5=15 " = "2x+5=15".
Proof. repeat split; reflexivity. Qed.

(** C8: in [IDLE] with the text form on screen, submitting a blank
    problem changes nothing; submitting any other problem moves the
    session to [ANALYZING] with the problem as [submittedText], no
    uploaded image and one text call in flight, creating no URL and
    whatever the browser's canvas does; and when that call returns a
    text without the error tag the session is in [SUCCESS] with exactly
    that text as the solution, still showing the submitted problem. *)
Theorem C8_text_submission (b : Browser) (w : World) :
  reachable b w ->
  appState (app w) = IDLE ->
  inputMode (app w) = text ->
  (JsString.trim (textProblem (app w)) = "" ->
   step b w FormSubmitted = w)
  /\ (JsString.trim (textProblem (app w)) <> "" ->
      appState (app (step b w FormSubmitted)) = ANALYZING
      /\ submittedText (app (step b w FormSubmitted))
           = Some (textProblem (app w))
      /\ uploadedImage (app (step b w FormSubmitted)) = None
      /\ inflight (step b w FormSubmitted) = [TextCall (textProblem (app w))]
      /\ urls (step b w FormSubmitted) = urls w
      /\ (forall b', step b' w FormSubmitted = step b w FormSubmitted)
      /\ (forall result,
            JsString.startsWith "Error:" result = false ->
            appState (app (step b (step b w FormSubmitted)
                             (SolveSettled (Responds result)))) = SUCCESS
            /\ solution (app (step b (step b w FormSubmitted)
                                (SolveSettled (Responds result))))
                 = Some result
            /\ submittedText (app (step b (step b w FormSubmitted)
                                     (SolveSettled (Responds result))))
                 = Some (textProblem (app w))
            /\ uploadedImage (app (step b (step b w FormSubmitted)
                                     (SolveSettled (Responds result))))
                 = None
            /\ inflight (step b (step b w FormSubmitted)
                           (SolveSettled (Responds result))) = [])).
Proof.
  intros Hreach Hst Hmode.
  pose proof (reachable_Inv b w Hreach) as HInv.
  assert (Hnil : inflight w = []).
  { destruct HInv as (_ & Hnone & _). apply Hnone. rewrite Hst.
    discriminate. }
  assert (Hdisp : forall b',
            dispatch b' w FormSubmitted =
            if negb (View.submitDisabled (app w))
            then handleTextSubmit w else w).
  { intros b'. unfold dispatch, View.formRendered, View.idleContent.
    rewrite Hst, Hmode. reflexivity. }
  assert (Hdis : View.submitDisabled (app w)
                 = negb (JsString.truthy
                           (JsString.trim (textProblem (app w))))).
  { unfold View.submitDisabled. rewrite Hst. reflexivity. }
  split.
  - intros Hblank. unfold step. rewrite Hdisp, Hdis, Hblank. simpl.
    apply remount_same. exact HInv.
  - intros Hfilled.
    assert (Htruthy : JsString.truthy
                        (JsString.trim (textProblem (app w))) = true).
    { destruct (JsString.trim (textProblem (app w)));
        [congruence | reflexivity]. }
    assert (Hstep : forall b',
              step b' w FormSubmitted =
              remount w
                {| app := {| appState := ANALYZING;
                             inputMode := inputMode (app w);
                             imageToCrop := imageToCrop (app w);
                             uploadedImage := None;
                             textProblem := textProblem (app w);
                             submittedText := Some (textProblem (app w));
                             solution := None;
                             error := None |};
                   modal := modal w; urls := urls w;
                   inflight := [TextCall (textProblem (app w))] |}).
    { intros b'. unfold step. rewrite Hdisp, Hdis, Htruthy. simpl.
      unfold handleTextSubmit. rewrite Htruthy, Hnil. reflexivity. }
    rewrite (Hstep b).
    split; [rewrite remount_app; reflexivity|].
    split; [rewrite remount_app; reflexivity|].
    split; [rewrite remount_app; reflexivity|].
    split; [rewrite remount_inflight; reflexivity|].
    split; [rewrite remount_urls; reflexivity|].
    split; [intros b'; apply Hstep|].
    intros result Htag.
    unfold step at 1 2 3 4 5. rewrite !remount_app, !remount_inflight.
    unfold dispatch, settle.
    rewrite remount_inflight, remount_app. simpl.
    unfold geminiService.solveMathProblemFromText.
    destruct (afterSolve_untagged result
                {| appState := ANALYZING;
                   inputMode := inputMode (app w);
                   imageToCrop := imageToCrop (app w);
                   uploadedImage := None;
                   textProblem := textProblem (app w);
                   submittedText := Some (textProblem (app w));
                   solution := None;
                   error := None |} Htag)
      as (Hs & Hsol & _ & Hsub & Hup).
    repeat split; assumption.
Qed.

Lemma C8_text_submission_witness :
  appState (app (run sampleBrowser initialWorld
                   (typeAndSubmit "2x+5=15"
                    ++ [SolveSettled
                          (Responds ("## Final Answer"
                                     ++ String "010" "$$x=5$$"))])))
    = SUCCESS
  /\ solution (app (run sampleBrowser initialWorld
                      (typeAndSubmit "2x+5=15"
                       ++ [SolveSettled
                             (Responds ("## Final Answer"
                                        ++ String "010" "$$x=5$$"))])))
    = Some ("## Final Answer" ++ String "010" "$$x=5$$")
  /\ submittedText
       (app (run sampleBrowser initialWorld
               (typeAndSubmit "2x+5=15"
                ++ [SolveSettled
                      (Responds ("## Final Answer"
                                 ++ String "010" "$$x=5$$"))])))
    = Some "2x+5=15".
Proof.
  destruct (C8_text_submission sampleBrowser
              (run sampleBrowser initialWorld
                 [TabClicked text; TextTyped "2x+5=15"]))
    as (_ & Hfilled).
  - exists [TabClicked text; TextTyped "2x+5=15"]. reflexivity.
  - reflexivity.
  - reflexivity.
  - destruct Hfilled as (_ & _ & _ & _ & _ & _ & Hdone).
    + vm_compute. discriminate.
    + destruct (Hdone ("## Final Answer" ++ String "010" "$$x=5$$") eq_refl)
        as (Hs & Hsol & Hsub & _).
      split; [exact Hs|]. split; [exact Hsol | exact Hsub].
Defined.

(** C10: when a completed selection is confirmed, the crop is encoded
    with type ['image/jpeg'], and when the crop and the fetch of its data
    URL succeed the call put in flight carries the data part of that
    encoding with media type ['image/jpeg'], whatever the type of the
    chosen file; the request the service builds for it holds that media
    type next to the data.  In no case does the confirmation put an
    image call of another media type in flight. *)
Theorem C10_crop_is_submitted_as_jpeg
    (b : Browser) (w : World) (file : File) (u : Url)
    (crop : PixelCrop float) (image : HTMLImageElement) :
  appState (app w) = CROPPING ->
  imageToCrop (app w) = Some (file, u) ->
  completedCrop (modal w) = Some crop ->
  imgRef (modal w) = Some image ->
  isProcessing (modal w) = false ->
  (context2d b = true -> img_broken image = false ->
   exists canvas,
     renderCrop b image crop = Some canvas
     /\ getCroppedImg b image crop "image/jpeg"
          = Resolved (toDataURL b canvas "image/jpeg")
     /\ (fetchData b
           (dataUrl
              (nth_error
                 (JsString.split "," (toDataURL b canvas "image/jpeg")) 1)
              "image/jpeg") = true ->
         appState (app (step b w CropAndSolveClicked)) = ANALYZING
         /\ inflight (step b w CropAndSolveClicked) =
              (inflight w ++
               [ImageCall
                  (nth_error
                     (JsString.split ","
                        (toDataURL b canvas "image/jpeg")) 1)
                  "image/jpeg"])%list)
     /\ contents
          (geminiService.imageParameters
             (nth_error
                (JsString.split "," (toDataURL b canvas "image/jpeg")) 1)
             "image/jpeg") =
          parts [ textPart "Solve the math problem shown in this image.";
                  inlineData "image/jpeg"
                    (nth_error
                       (JsString.split ","
                          (toDataURL b canvas "image/jpeg")) 1) ])
  /\ (forall d m,
        In (ImageCall d m) (inflight (step b w CropAndSolveClicked)) ->
        In (ImageCall d m) (inflight w) \/ m = "image/jpeg").
Proof.
  intros Hst Hitc Hcrop Himg Hproc.
  assert (Hstep : step b w CropAndSolveClicked =
                  remount w
                    match getCroppedImg b image crop "image/jpeg" with
                    | Resolved data =>
                        handleCropConfirm b
                          (nth_error (JsString.split "," data) 1)
                          "image/jpeg" (setIsProcessing true w)
                    | Rejected _ =>
                        setIsProcessing false (setIsProcessing true w)
                    end).
  { unfold step, dispatch, View.modalRendered, View.confirmDisabled.
    rewrite Hst, Hitc, Hcrop, Hproc. simpl.
    unfold handleConfirmCrop. rewrite Hcrop, Himg. reflexivity. }
  split.
  - intros Hctx Hok.
    destruct (getCroppedImg_cases b image crop "image/jpeg")
      as (_ & _ & Hres).
    destruct (Hres Hctx Hok) as (canvas & Hrender & Hget).
    exists canvas. split; [exact Hrender|]. split; [exact Hget|].
    split; [|reflexivity].
    intros Hfetch. rewrite Hstep, Hget, remount_app, remount_inflight.
    unfold handleCropConfirm. rewrite Hfetch. simpl. split; reflexivity.
  - intros d m. rewrite Hstep, remount_inflight.
    destruct (getCroppedImg b image crop "image/jpeg") as [data|message].
    + unfold handleCropConfirm. destruct (fetchData b _); simpl.
      * intros Hin. apply in_app_or in Hin.
        destruct Hin as [Hin | [Heq | []]]; [left; exact Hin|].
        right. congruence.
      * auto.
    + simpl. auto.
Qed.

Lemma C10_crop_is_submitted_witness :
  inflight (step sampleBrowser
              (run sampleBrowser initialWorld
                 [ FileOffered (Some fileA); ImageRendered samplePhoto;
                   CropCompleted sampleCrop ])
              CropAndSolveClicked)
    = [ImageCall (Some "/9j/4AAQ") "image/jpeg"].
Proof.
  destruct (C10_crop_is_submitted_as_jpeg sampleBrowser
              (run sampleBrowser initialWorld
                 [ FileOffered (Some fileA); ImageRendered samplePhoto;
                   CropCompleted sampleCrop ])
              fileA 0 sampleCrop samplePhoto)
    as (Hgood & _).
  - reflexivity.
  - reflexivity.
  - reflexivity.
  - reflexivity.
  - reflexivity.
  - destruct (Hgood eq_refl eq_refl) as (canvas & Hr & _ & Hsub & _).
    injection Hr as <-.
    destruct (Hsub eq_refl) as (_ & Hin). rewrite Hin. reflexivity.
Defined.

(* ================================================================= *)
(** * Further properties *)

(** ** Which cells are filled in which state *)

Lemma trim_truthy (s : string) :
  JsString.truthy (JsString.trim s) = true -> JsString.trim s <> "".
Proof. destruct (JsString.trim s); simpl; congruence. Qed.

Lemma afterSolve_Coherent (result : string) (a : App) (c : Call) :
  Coherent a [c] -> appState a = ANALYZING ->
  Coherent (afterSolve result a) [].
Proof.
  unfold Coherent. intros Hc Hst. rewrite Hst in Hc.
  destruct Hc as (Hitc & Hsol & Herr & Horigin).
  assert (Ho : Origin a).
  { destruct Horigin as [(u & d & Hu & Hs & _) | (t & Hu & Hs & Ht & _)].
    - left. exists u. auto.
    - right. split; [exact Hu|]. exists t. auto. }
  unfold afterSolve.
  destruct (JsString.startsWith "Error:" result); simpl.
  - split; [exact Hitc|]. split; [exact Ho|]. split; [exact Hsol|].
    destruct (JsString.replace "Error: " "" result); simpl;
      eexists; split; try reflexivity; discriminate.
  - split; [exact Hitc|]. split; [exact Ho|].
    split; [eexists; reflexivity | exact Herr].
Qed.

Lemma afterAwait_Coherent (result : option string) (a : App) (c : Call) :
  Coherent a [c] -> appState a = ANALYZING ->
  Coherent (afterAwait result a) [].
Proof.
  destruct result as [r|]; [apply afterSolve_Coherent|].
  unfold Coherent. intros Hc Hst. rewrite Hst in Hc.
  destruct Hc as (Hitc & Hsol & Herr & Horigin). simpl.
  split; [exact Hitc|]. split.
  - destruct Horigin as [(u & d & Hu & Hs & _) | (t & Hu & Hs & Ht & _)].
    + left. exists u. auto.
    + right. split; [exact Hu|]. exists t. auto.
  - split; [exact Hsol|]. eexists. split; [reflexivity | discriminate].
Qed.

Lemma dispatch_Coherent (b : Browser) (w : World) (e : Event) :
  Inv w -> Coherent (app w) (inflight w) ->
  Coherent (app (dispatch b w e)) (inflight (dispatch b w e)).
Proof.
  intros (Hone & Hnone & _) Hc.
  destruct e; unfold dispatch.
  - (* TabClicked *)
    destruct (View.idleContent (app w)); [|exact Hc].
    unfold Coherent in *. simpl. exact Hc.
  - (* FileOffered *)
    destruct (View.uploaderRendered (app w)) eqn:Hr; simpl; [|exact Hc].
    destruct (negb (View.uploaderDisabled (app w))); simpl; [|exact Hc].
    unfold View.uploaderRendered in Hr.
    apply andb_prop in Hr. destruct Hr as (Hidle & _).
    apply idleContent_true in Hidle.
    unfold handleFile. destruct f as [f|]; [|exact Hc].
    destruct (JsString.startsWith "image/" (file_type f)) eqn:Hty;
      [|exact Hc].
    unfold Coherent in Hc. rewrite Hidle in Hc.
    destruct Hc as (Hitc & Hui & Hsub & Hsol & Herr).
    unfold handleImageSelect. rewrite Hitc. unfold Coherent. simpl.
    split; [exists f, (next_url (urls w)); auto|]. auto.
  - (* TextTyped *)
    destruct (View.formRendered (app w) && _); [|exact Hc].
    unfold Coherent in *. simpl. exact Hc.
  - (* FormSubmitted *)
    destruct (View.formRendered (app w)) eqn:Hr; simpl; [|exact Hc].
    destruct (negb (View.submitDisabled (app w))); simpl; [|exact Hc].
    unfold View.formRendered in Hr.
    apply andb_prop in Hr. destruct Hr as (Hidle & _).
    apply idleContent_true in Hidle.
    unfold handleTextSubmit.
    destruct (JsString.truthy (JsString.trim (textProblem (app w))))
      eqn:Htr; simpl; [|exact Hc].
    unfold Coherent in Hc. rewrite Hidle in Hc.
    destruct Hc as (Hitc & Hui & Hsub & Hsol & Herr).
    unfold Coherent. simpl.
    rewrite (Hnone ltac:(rewrite Hidle; discriminate)). simpl.
    split; [exact Hitc|]. split; [reflexivity|]. split; [reflexivity|].
    right. exists (textProblem (app w)).
    repeat split. apply trim_truthy. exact Htr.
  - (* ImageRendered *)
    destruct (View.modalRendered (app w)); exact Hc.
  - (* CropCompleted *)
    destruct (View.modalRendered (app w)); exact Hc.
  - (* CropAndSolveClicked *)
    destruct (View.modalRendered (app w)) eqn:Hr; simpl; [|exact Hc].
    destruct (negb (View.confirmDisabled (modal w))); simpl; [|exact Hc].
    apply modalRendered_true in Hr. destruct Hr as (Hcrop & _).
    unfold handleConfirmCrop.
    destruct (completedCrop (modal w)) as [crop|]; [|exact Hc].
    destruct (imgRef (modal w)) as [image|]; [|exact Hc].
    destruct (getCroppedImg b image crop "image/jpeg") as [data|message];
      simpl; [|exact Hc].
    unfold handleCropConfirm. destruct (fetchData b _); simpl; [|exact Hc].
    unfold Coherent. simpl.
    rewrite (Hnone ltac:(rewrite Hcrop; discriminate)). simpl.
    repeat split. left. do 2 eexists. repeat split.
  - (* CancelClicked *)
    destruct (View.modalRendered (app w)) eqn:Hr; simpl; [|exact Hc].
    destruct (negb (View.cancelDisabled (modal w))); simpl; [|exact Hc].
    unfold Coherent. simpl. repeat split.
  - (* SolveAnotherClicked *)
    destruct (View.resetRendered (app w)) eqn:Hr; simpl; [|exact Hc].
    unfold Coherent. simpl. repeat split.
  - (* SolveSettled *)
    unfold settle. destruct (inflight w) as [|c calls] eqn:Hin.
    + rewrite Hin. exact Hc.
    + simpl.
      assert (Hst : appState (app w) = ANALYZING).
      { destruct (appState (app w)); try reflexivity;
          specialize (Hnone ltac:(discriminate)); congruence. }
      assert (calls = []) as ->.
      { specialize (Hone Hst). simpl in Hone.
        destruct calls; [reflexivity | discriminate]. }
      apply afterAwait_Coherent with (c := c); assumption.
Qed.

Lemma step_Coherent (b : Browser) (w : World) (e : Event) :
  Inv w -> Coherent (app w) (inflight w) ->
  Coherent (app (step b w e)) (inflight (step b w e)).
Proof.
  intros HInv Hc. unfold step. rewrite remount_app, remount_inflight.
  apply dispatch_Coherent; assumption.
Qed.

Lemma run_Coherent (b : Browser) (es : list Event) (w : World) :
  Inv w -> Coherent (app w) (inflight w) ->
  Coherent (app (run b w es)) (inflight (run b w es)).
Proof.
  revert w. induction es as [|e es IH]; intros w HInv Hc; simpl.
  - exact Hc.
  - apply IH; [apply step_Inv | apply step_Coherent]; assumption.
Qed.

Lemma reachable_Coherent (b : Browser) (w : World) :
  reachable b w -> Coherent (app w) (inflight w).
Proof.
  intros (es & ->). apply run_Coherent.
  - apply initialWorld_Inv.
  - unfold Coherent. simpl. repeat split.
Qed.

(** ** The URL registry *)

Lemma NoDup_snoc (l : list Url) (x : Url) :
  NoDup l -> ~ In x l -> NoDup (l ++ [x]).
Proof.
  intros Hl Hx. induction Hl as [|y l Hy Hl IH]; simpl.
  - constructor; [intros [] | constructor].
  - constructor.
    + rewrite in_app_iff. simpl. intros [Hin | [-> | []]].
      * exact (Hy Hin).
      * apply Hx. left. reflexivity.
    + apply IH. intros Hin. apply Hx. right. exact Hin.
Qed.

(** The state may stop referring to URLs, in any order. *)
Lemma RegOK_sub (r : UrlRegistry) (h h' keep : list Url) :
  RegOK r h keep -> NoDup h' -> (forall u, In u h' -> In u h) ->
  RegOK r h' keep.
Proof.
  intros (Hc & Hnd & Hlt & Hh & Hheld & HK) Hnd' Hsub.
  repeat split; try assumption.
  - apply Hheld, Hsub; assumption.
  - apply Hheld, Hsub; assumption.
  - apply HK; assumption.
  - apply HK; assumption.
  - intros Hin. destruct (HK u H) as (_ & _ & Hno). apply Hno, Hsub, Hin.
Qed.

(** Revoking a URL the state refers to, and forgetting it. *)
Lemma RegOK_revoke (r : UrlRegistry) (u : Url) (h keep : list Url) :
  RegOK r (u :: h) keep -> RegOK (revokeObjectURL u r) h keep.
Proof.
  intros (Hc & Hnd & Hlt & Hh & Hheld & HK).
  inversion Hh as [|x l Hu Hh' Heq]; subst.
  destruct (Hheld u (or_introl eq_refl)) as (Hult & Hunew).
  unfold RegOK, revokeObjectURL; simpl.
  split; [exact Hc|].
  split; [apply NoDup_snoc; assumption|].
  split.
  { intros v Hv. apply in_app_or in Hv. destruct Hv as [Hv | [<- | []]];
      [apply Hlt; exact Hv | exact Hult]. }
  split; [exact Hh'|].
  split.
  { intros v Hv. destruct (Hheld v (or_intror Hv)) as (Hvlt & Hvnew).
    split; [exact Hvlt|]. intros Hin. apply in_app_or in Hin.
    destruct Hin as [Hin | [<- | []]]; [exact (Hvnew Hin) | exact (Hu Hv)]. }
  intros v Hv. destruct (HK v Hv) as (Hvlt & Hvnew & Hvh).
  split; [exact Hvlt|]. split.
  - intros Hin. apply in_app_or in Hin.
    destruct Hin as [Hin | [<- | []]];
      [exact (Hvnew Hin) | apply Hvh; left; reflexivity].
  - intros Hin. apply Hvh. right. exact Hin.
Qed.

(** Creating a URL, which the state then refers to. *)
Lemma RegOK_create (r : UrlRegistry) (h keep : list Url) :
  RegOK r h keep ->
  RegOK (snd (createObjectURL r)) (fst (createObjectURL r) :: h) keep.
Proof.
  intros (Hc & Hnd & Hlt & Hh & Hheld & HK).
  unfold RegOK, createObjectURL; simpl.
  split; [rewrite Hc; symmetry; apply seq_S|].
  split; [exact Hnd|].
  split; [intros v Hv; apply Nat.lt_lt_succ_r, Hlt, Hv|].
  split.
  { constructor; [|exact Hh]. intros Hin.
    destruct (Hheld _ Hin) as (Hlt' & _). exact (Nat.lt_irrefl _ Hlt'). }
  split.
  { intros v [<- | Hv].
    - split; [apply Nat.lt_succ_diag_r|]. intros Hin.
      exact (Nat.lt_irrefl _ (Hlt _ Hin)).
    - destruct (Hheld v Hv) as (Hvlt & Hvnew).
      split; [apply Nat.lt_lt_succ_r, Hvlt | exact Hvnew]. }
  intros v Hv. destruct (HK v Hv) as (Hvlt & Hvnew & Hvh).
  split; [apply Nat.lt_lt_succ_r, Hvlt|]. split; [exact Hvnew|].
  intros [<- | Hin]; [exact (Nat.lt_irrefl _ Hvlt) | exact (Hvh Hin)].
Qed.

(** Forgetting a URL without revoking it sets it aside for good. *)
Lemma RegOK_forget (r : UrlRegistry) (u : Url) (h keep : list Url) :
  RegOK r (u :: h) keep -> RegOK r h (u :: keep).
Proof.
  intros (Hc & Hnd & Hlt & Hh & Hheld & HK).
  inversion Hh as [|x l Hu Hh' Heq]; subst.
  repeat split; try assumption.
  - apply Hheld. right. assumption.
  - apply Hheld. right. assumption.
  - destruct H as [<- | Hin];
      [apply Hheld; left; reflexivity | apply HK; exact Hin].
  - destruct H as [<- | Hin];
      [apply Hheld; left; reflexivity | apply HK; exact Hin].
  - destruct H as [<- | Hin]; [exact Hu|].
    intros Hv. destruct (HK u0 Hin) as (_ & _ & Hno). apply Hno.
    right. exact Hv.
Qed.

Lemma handleReset_UrlInv (keep : list Url) (w : World) :
  UrlInv keep w -> UrlInv keep (handleReset w).
Proof.
  unfold UrlInv, handleReset, held.
  destruct (uploadedImage (app w)) as [u1|];
    destruct (imageToCrop (app w)) as [[f u2]|]; simpl; intros H.
  - apply RegOK_revoke, RegOK_revoke. exact H.
  - apply RegOK_revoke. exact H.
  - apply RegOK_revoke. exact H.
  - exact H.
Qed.

Lemma RegOK_swap (r : UrlRegistry) (a b : Url) (h keep : list Url) :
  RegOK r (a :: b :: h) keep -> RegOK r (b :: a :: h) keep.
Proof.
  intros H. apply RegOK_sub with (h := a :: b :: h); [exact H | |].
  - destruct H as (_ & _ & _ & Hh & _).
    inversion Hh as [|x l Ha Hh' Heq]; subst.
    inversion Hh' as [|x l Hb Hh'' Heq]; subst.
    constructor.
    + intros [-> | Hin]; [apply Ha; left; reflexivity | exact (Hb Hin)].
    + constructor; [|exact Hh''].
      intros Hin. apply Ha. right. exact Hin.
  - simpl. intros u [<- | [<- | Hin]]; auto.
Qed.

Lemma handleImageSelect_UrlInv (keep : list Url) (file : File) (w : World) :
  UrlInv keep w -> UrlInv keep (handleImageSelect file w).
Proof.
  unfold UrlInv, handleImageSelect, held.
  destruct (uploadedImage (app w)) as [u1|] eqn:Hui;
    destruct (imageToCrop (app w)) as [[f u2]|]; simpl;
    rewrite ?Hui; simpl; intros H.
  - apply RegOK_swap.
    apply (RegOK_create (revokeObjectURL u2 (urls w)) [u1] keep).
    apply RegOK_revoke, RegOK_swap. exact H.
  - apply RegOK_swap. apply (RegOK_create (urls w) [u1] keep). exact H.
  - apply (RegOK_create (revokeObjectURL u2 (urls w)) [] keep).
    apply RegOK_revoke. exact H.
  - apply (RegOK_create (urls w) [] keep). exact H.
Qed.

Lemma RegOK_nil (r : UrlRegistry) (h keep : list Url) :
  RegOK r h keep -> RegOK r [] keep.
Proof.
  intros H. apply RegOK_sub with (h := h); [exact H | constructor|].
  intros u [].
Qed.

Lemma handleCropConfirm_UrlInv (keep : list Url) (b : Browser)
    (base64 : option string) (mimeType : string) (w : World) :
  UrlInv keep w -> UrlInv keep (handleCropConfirm b base64 mimeType w).
Proof.
  unfold UrlInv, handleCropConfirm, held.
  destruct (fetchData b _); simpl; intros H; [|exact H].
  apply (RegOK_create (urls w) [] keep).
  apply RegOK_nil with (h := held (app w)). exact H.
Qed.

Lemma handleTextSubmit_UrlInv (keep : list Url) (w : World) :
  UrlInv keep w -> UrlInv keep (handleTextSubmit w).
Proof.
  unfold UrlInv, handleTextSubmit.
  destruct (negb _); [auto|]. simpl. intros H.
  apply RegOK_sub with (h := held (app w)); [exact H | |].
  - unfold held; simpl.
    destruct (imageToCrop (app w)) as [[f u]|];
      constructor; [intros [] | constructor].
  - unfold held; simpl. intros u Hin. apply in_or_app. right. exact Hin.
Qed.

Lemma afterAwait_held (result : option string) (a : App) :
  held (afterAwait result a) = held a.
Proof.
  destruct result as [r|]; [|reflexivity]. simpl.
  unfold afterSolve. destruct (JsString.startsWith "Error:" r);
    reflexivity.
Qed.

Lemma dispatch_UrlInv (keep : list Url) (b : Browser) (w : World)
    (e : Event) :
  UrlInv keep w -> UrlInv keep (dispatch b w e).
Proof.
  intros H. destruct e; unfold dispatch.
  - destruct (View.idleContent (app w)); exact H.
  - destruct (_ && _); [|exact H].
    unfold handleFile. destruct f as [f|]; [|exact H].
    destruct (JsString.startsWith "image/" (file_type f)); [|exact H].
    apply handleImageSelect_UrlInv. exact H.
  - destruct (_ && _); exact H.
  - destruct (_ && _); [|exact H]. apply handleTextSubmit_UrlInv. exact H.
  - destruct (View.modalRendered (app w)); exact H.
  - destruct (View.modalRendered (app w)); exact H.
  - destruct (_ && _); [|exact H].
    unfold handleConfirmCrop.
    destruct (completedCrop (modal w)) as [crop|]; [|exact H].
    destruct (imgRef (modal w)) as [image|]; [|exact H].
    destruct (getCroppedImg b image crop "image/jpeg") as [data|message];
      [|exact H].
    apply (handleCropConfirm_UrlInv keep b _ _ (setIsProcessing true w)).
    exact H.
  - destruct (_ && _); [|exact H]. apply handleReset_UrlInv. exact H.
  - destruct (View.resetRendered (app w)); [|exact H].
    apply handleReset_UrlInv. exact H.
  - unfold settle. destruct (inflight w) as [|c calls]; [exact H|].
    unfold UrlInv in *. simpl. rewrite afterAwait_held. exact H.
Qed.

Lemma step_UrlInv (keep : list Url) (b : Browser) (w : World) (e : Event) :
  UrlInv keep w -> UrlInv keep (step b w e).
Proof.
  intros H. unfold step, UrlInv.
  rewrite remount_urls, remount_app. apply dispatch_UrlInv. exact H.
Qed.

Lemma run_UrlInv (keep : list Url) (b : Browser) (es : list Event)
    (w : World) :
  UrlInv keep w -> UrlInv keep (run b w es).
Proof.
  revert w. induction es as [|e es IH]; intros w H; simpl.
  - exact H.
  - apply IH, step_UrlInv, H.
Qed.

Lemma reachable_UrlInv (b : Browser) (w : World) :
  reachable b w -> UrlInv [] w.
Proof.
  intros (es & ->). apply run_UrlInv.
  unfold UrlInv, RegOK; simpl.
  split; [reflexivity|]. split; [constructor|].
  split; [intros u []|]. split; [constructor|].
  split; intros u [].
Qed.

(** ** Reachable sessions *)

Lemma croppingA_reachable : reachable sampleBrowser croppingA.
Proof. eexists. reflexivity. Qed.

Lemma analyzingImage_reachable : reachable sampleBrowser analyzingImage.
Proof. eexists. reflexivity. Qed.

Lemma analyzingText_reachable : reachable sampleBrowser analyzingText.
Proof. eexists. reflexivity. Qed.

(** X1: in every reachable world an image is waiting to be cropped
    exactly when the session is in [CROPPING], and that is exactly when
    the crop modal is on screen. *)
Theorem cropping_iff_image_to_crop (b : Browser) (w : World) :
  reachable b w ->
  (appState (app w) = CROPPING <->
   exists f u, imageToCrop (app w) = Some (f, u))
  /\ (View.modalRendered (app w) = true <-> appState (app w) = CROPPING).
Proof.
  intros Hreach. pose proof (reachable_Coherent b w Hreach) as Hc.
  unfold Coherent in Hc.
  assert (Hiff : appState (app w) = CROPPING <->
                 exists f u, imageToCrop (app w) = Some (f, u)).
  { destruct (appState (app w)) eqn:Hst.
    2: { destruct Hc as ((f & u & Hitc & _) & _).
         split; [intros _; exists f, u; exact Hitc | reflexivity]. }
    all: destruct Hc as (Hitc & _); rewrite Hitc;
      split; [discriminate | intros (f & u & Habs); discriminate]. }
  split; [exact Hiff|].
  split.
  - intros Hr. apply modalRendered_true in Hr. apply Hr.
  - intros Hst. destruct (proj1 Hiff Hst) as (f & u & Hitc).
    unfold View.modalRendered. rewrite Hst, Hitc. reflexivity.
Qed.

Lemma cropping_iff_image_to_crop_witness :
  View.modalRendered (app croppingA) = true
  /\ appState (app analyzingImage) <> CROPPING.
Proof.
  destruct (cropping_iff_image_to_crop sampleBrowser croppingA
              croppingA_reachable) as (_ & Hmodal).
  split; [apply Hmodal; reflexivity | discriminate].
Defined.

(** X2: the file held for cropping always has a media type that starts
    with ["image/"]: the uploader lets no other file through. *)
Theorem file_to_crop_is_an_image (b : Browser) (w : World) (f : File)
    (u : Url) :
  reachable b w ->
  imageToCrop (app w) = Some (f, u) ->
  JsString.startsWith "image/" (file_type f) = true.
Proof.
  intros Hreach Hitc. pose proof (reachable_Coherent b w Hreach) as Hc.
  unfold Coherent in Hc.
  destruct (appState (app w)).
  2: { destruct Hc as ((f' & u' & Hitc' & Hty) & _).
       rewrite Hitc in Hitc'. injection Hitc' as -> ->. exact Hty. }
  all: destruct Hc as (Hnone & _); rewrite Hitc in Hnone; discriminate.
Qed.

Lemma file_to_crop_is_an_image_witness :
  JsString.startsWith "image/" (file_type fileA) = true.
Proof.
  apply (file_to_crop_is_an_image sampleBrowser croppingA fileA 0).
  - exact croppingA_reachable.
  - reflexivity.
Defined.

(** X3: in every reachable world, [SUCCESS] holds a solution and no
    error, [ERROR] holds an error message that is not empty and no
    solution, and the other states hold neither. *)
Theorem solution_and_error_follow_the_state (b : Browser) (w : World) :
  reachable b w ->
  (appState (app w) = SUCCESS ->
   (exists s, solution (app w) = Some s) /\ error (app w) = None)
  /\ (appState (app w) = ERROR ->
      solution (app w) = None
      /\ exists m, error (app w) = Some m /\ m <> "")
  /\ (appState (app w) <> SUCCESS -> appState (app w) <> ERROR ->
      solution (app w) = None /\ error (app w) = None).
Proof.
  intros Hreach. pose proof (reachable_Coherent b w Hreach) as Hc.
  unfold Coherent in Hc.
  destruct (appState (app w)); (split; [|split]);
    try discriminate; try congruence; intros; tauto.
Qed.

Lemma solution_and_error_follow_the_state_witness :
  solution (app (step sampleBrowser analyzingImage
                   (SolveSettled (ThrowsError "quota")))) = None
  /\ exists m,
       error (app (step sampleBrowser analyzingImage
                     (SolveSettled (ThrowsError "quota")))) = Some m
       /\ m <> "".
Proof.
  destruct (solution_and_error_follow_the_state sampleBrowser
              (step sampleBrowser analyzingImage
                 (SolveSettled (ThrowsError "quota"))))
    as (_ & Herr & _).
  - exists (cropAndSolve fileA sampleCrop
            ++ [SolveSettled (ThrowsError "quota")])%list. reflexivity.
  - apply Herr. reflexivity.
Defined.

(** X4: in every reachable world, while a request is analyzed or its
    result is shown, the result panel has exactly one thing to show:
    either the cropped image and no submitted text, or a submitted text
    that is not blank and no image; in [IDLE] and [CROPPING] it has
    neither. *)
Theorem result_panel_has_one_origin (b : Browser) (w : World) :
  reachable b w ->
  match appState (app w) with
  | ANALYZING | SUCCESS | ERROR => Origin (app w)
  | IDLE | CROPPING =>
      uploadedImage (app w) = None /\ submittedText (app w) = None
  end.
Proof.
  intros Hreach. pose proof (reachable_Coherent b w Hreach) as Hc.
  unfold Coherent in Hc.
  destruct (appState (app w)); try tauto.
  destruct Hc as (_ & _ & _ & [(u & d & Hu & Hs & _) | (t & Hu & Hs & Ht & _)]).
  - left. exists u. auto.
  - right. split; [exact Hu|]. exists t. auto.
Qed.

Lemma result_panel_has_one_origin_witness :
  Origin (app analyzingText) /\ Origin (app analyzingImage).
Proof.
  split.
  - exact (result_panel_has_one_origin sampleBrowser analyzingText
             analyzingText_reachable).
  - exact (result_panel_has_one_origin sampleBrowser analyzingImage
             analyzingImage_reachable).
Defined.

(** X5: in every reachable world every image call in flight carries the
    media type ['image/jpeg'], and in [ANALYZING] the one call in flight
    is the one the result panel shows: an image call beside the cropped
    preview, or the text call of the submitted problem. *)
Theorem call_in_flight_matches_the_panel (b : Browser) (w : World) :
  reachable b w ->
  (forall d m, In (ImageCall d m) (inflight w) -> m = "image/jpeg")
  /\ (appState (app w) = ANALYZING ->
      (exists u d, uploadedImage (app w) = Some u
                   /\ inflight w = [ImageCall d "image/jpeg"])
      \/ (exists t, submittedText (app w) = Some t
                    /\ inflight w = [TextCall t])).
Proof.
  intros Hreach. pose proof (reachable_Coherent b w Hreach) as Hc.
  pose proof (reachable_Inv b w Hreach) as (_ & Hnone & _).
  unfold Coherent in Hc.
  destruct (appState (app w)) eqn:Hst;
    try (rewrite (Hnone ltac:(discriminate));
         split; [intros d m [] | discriminate]).
  destruct Hc as (_ & _ & _ & [(u & d & Hu & Hs & Hin) | (t & Hu & Hs & Ht & Hin)]);
    rewrite Hin; (split; [|intros _]).
  - intros d' m [Heq | []]. congruence.
  - left. exists u, d. auto.
  - intros d' m [Heq | []]. discriminate.
  - right. exists t. auto.
Qed.

Lemma call_in_flight_matches_the_panel_witness :
  exists t, submittedText (app analyzingText) = Some t
            /\ inflight analyzingText = [TextCall t].
Proof.
  destruct (call_in_flight_matches_the_panel sampleBrowser analyzingText
              analyzingText_reachable) as (_ & Hcall).
  destruct (Hcall eq_refl) as [(u & d & Hu & _) | Ht].
  - discriminate.
  - exact Ht.
Defined.

(** In [ANALYZING] exactly one call is in flight. *)
Lemma analyzing_call (b : Browser) (w : World) :
  reachable b w -> appState (app w) = ANALYZING ->
  exists c, inflight w = [c].
Proof.
  intros Hreach Hst.
  destruct (reachable_Inv b w Hreach) as (Hone & _ & _).
  specialize (Hone Hst).
  destruct (inflight w) as [|c [|c' calls]]; try discriminate.
  exists c. reflexivity.
Qed.

Lemma settled_app (b : Browser) (w : World) (c : Call) (o : Outcome) :
  inflight w = [c] ->
  app (step b w (SolveSettled o)) =
    afterAwait
      (match c with
       | ImageCall base64 mimeType =>
           geminiService.solveMathProblemFromImage (fun _ => o)
             base64 mimeType
       | TextCall problem =>
           geminiService.solveMathProblemFromText (fun _ => o) problem
       end) (app w)
  /\ inflight (step b w (SolveSettled o)) = []
  /\ urls (step b w (SolveSettled o)) = urls w.
Proof.
  intros Hin. unfold step.
  rewrite remount_app, remount_inflight, remount_urls.
  unfold dispatch, settle. rewrite Hin. simpl. auto.
Qed.

(** X6: in a reachable [ANALYZING] world, whatever way the solve call
    ends, the session leaves [ANALYZING] with nothing in flight: a thrown
    [Error], a response without text and a response whose text starts
    with ["Error:"] lead to [ERROR], every other response text and a
    thrown value that is not an [Error] lead to [SUCCESS]; the registry
    and the shown request stay as they were.  Outside [ANALYZING] a
    settling call changes nothing. *)
Theorem settling_leaves_ANALYZING (b : Browser) (w : World) (o : Outcome) :
  reachable b w ->
  (appState (app w) = ANALYZING ->
   appState (app (step b w (SolveSettled o))) =
     match o with
     | Responds r =>
         if JsString.startsWith "Error:" r then ERROR else SUCCESS
     | RespondsUndefined => ERROR
     | ThrowsError _ => ERROR
     | ThrowsOther => SUCCESS
     end
   /\ inflight (step b w (SolveSettled o)) = []
   /\ urls (step b w (SolveSettled o)) = urls w
   /\ uploadedImage (app (step b w (SolveSettled o)))
        = uploadedImage (app w)
   /\ submittedText (app (step b w (SolveSettled o)))
        = submittedText (app w))
  /\ (appState (app w) <> ANALYZING -> step b w (SolveSettled o) = w).
Proof.
  intros Hreach. split.
  - intros Hst. destruct (analyzing_call b w Hreach Hst) as (c & Hin).
    destruct (settled_app b w c o Hin) as (Happ & Hcalls & Hurls).
    rewrite Happ.
    split; [|split; [exact Hcalls|split; [exact Hurls|]]].
    + destruct o as [r| | m |]; destruct c; cbv beta iota;
        unfold geminiService.solveMathProblemFromImage,
               geminiService.solveMathProblemFromText, afterAwait;
        try (rewrite afterSolve_tagged; reflexivity);
        unfold afterSolve;
        try (destruct (JsString.startsWith "Error:" r); reflexivity);
        reflexivity.
    + destruct (match c with
                | ImageCall base64 mimeType => _
                | TextCall problem => _
                end) as [r|]; simpl; [|auto].
      unfold afterSolve.
      destruct (JsString.startsWith "Error:" r); simpl; auto.
  - intros Hst. pose proof (reachable_Inv b w Hreach) as HInv.
    destruct HInv as (Hone & Hnone & Hmodal).
    unfold step, dispatch, settle. rewrite (Hnone Hst).
    apply remount_same. split; [|split]; assumption.
Qed.

Lemma settling_leaves_ANALYZING_witness :
  appState (app (step sampleBrowser analyzingText
                   (SolveSettled (Responds "x = 5")))) = SUCCESS
  /\ inflight (step sampleBrowser analyzingText
                 (SolveSettled (Responds "x = 5"))) = []
  /\ step sampleBrowser initialWorld (SolveSettled (Responds "x = 5"))
     = initialWorld.
Proof.
  destruct (settling_leaves_ANALYZING sampleBrowser analyzingText
              (Responds "x = 5") analyzingText_reachable) as (Hbusy & _).
  destruct (Hbusy eq_refl) as (Hst & Hin & _).
  destruct (settling_leaves_ANALYZING sampleBrowser initialWorld
              (Responds "x = 5")) as (_ & Hidle).
  - exists []. reflexivity.
  - split; [exact Hst|]. split; [exact Hin|].
    apply Hidle. discriminate.
Defined.

(** X7: the message of an [Error] thrown by the solve call comes back
    unchanged: the service prefixes it with ["Error: "], the handler
    strips that first occurrence, and a reachable [ANALYZING] world ends
    in [ERROR] showing exactly the message, also when the message itself
    contains ["Error: "]; an empty message shows the fallback
    sentence. *)
Theorem thrown_message_is_shown_unchanged (b : Browser) (w : World)
    (message : string) :
  reachable b w ->
  appState (app w) = ANALYZING ->
  appState (app (step b w (SolveSettled (ThrowsError message)))) = ERROR
  /\ error (app (step b w (SolveSettled (ThrowsError message)))) =
       Some (if JsString.truthy message then message
             else "An unexpected error occurred.").
Proof.
  intros Hreach Hst. destruct (analyzing_call b w Hreach Hst) as (c & Hin).
  destruct (settled_app b w c (ThrowsError message) Hin) as (Happ & _).
  rewrite Happ.
  destruct c; cbv beta iota;
    unfold geminiService.solveMathProblemFromImage,
           geminiService.solveMathProblemFromText, afterAwait;
    rewrite afterSolve_tagged; split; reflexivity.
Qed.

Lemma thrown_message_is_shown_unchanged_witness :
  error (app (step sampleBrowser analyzingImage
                (SolveSettled (ThrowsError "Error: quota exceeded"))))
    = Some "Error: quota exceeded".
Proof.
  destruct (thrown_message_is_shown_unchanged sampleBrowser analyzingImage
              "Error: quota exceeded" analyzingImage_reachable eq_refl)
    as (_ & Herr).
  exact Herr.
Defined.

(** X8: in every reachable world no URL has been revoked more than
    once, and every revoked URL had been created. *)
Theorem no_url_is_revoked_twice (b : Browser) (w : World) (u : Url) :
  reachable b w ->
  releases (urls w) u <= 1
  /\ (In u (revoked (urls w)) -> In u (created (urls w))).
Proof.
  intros Hreach.
  destruct (reachable_UrlInv b w Hreach) as (Hc & Hnd & Hlt & _).
  split.
  - unfold releases. apply (proj1 (NoDup_count_occ Nat.eq_dec _) Hnd).
  - intros Hin. rewrite Hc. apply in_seq. specialize (Hlt u Hin). lia.
Qed.

Lemma no_url_is_revoked_twice_witness :
  releases (urls (run sampleBrowser initialWorld twoImageSessions)) 1 <= 1.
Proof.
  destruct (no_url_is_revoked_twice sampleBrowser
              (run sampleBrowser initialWorld twoImageSessions) 1)
    as (Hle & _).
  - exists twoImageSessions. reflexivity.
  - exact Hle.
Defined.

Lemma live_iff (r : UrlRegistry) (u : Url) :
  In u (live r) <-> In u (created r) /\ ~ In u (revoked r).
Proof.
  unfold live. rewrite filter_In. split; intros (Hc & Hr); split;
    try exact Hc.
  - intros Hin. apply negb_true_iff in Hr.
    assert (Hex : existsb (Nat.eqb u) (revoked r) = true).
    { apply existsb_exists. exists u. split; [exact Hin|].
      apply Nat.eqb_refl. }
    congruence.
  - apply negb_true_iff. destruct (existsb _ _) eqn:Hex; [|reflexivity].
    apply existsb_exists in Hex. destruct Hex as (v & Hv & Heq).
    apply Nat.eqb_eq in Heq. subst v. contradiction.
Qed.

(** X9: in every reachable world the URLs the state refers to, the
    cropped preview shown in the result panel and the image shown in the
    crop modal, are live: created and not revoked. *)
Theorem displayed_urls_are_live (b : Browser) (w : World) :
  reachable b w ->
  (forall u, uploadedImage (app w) = Some u -> In u (live (urls w)))
  /\ (forall f u, imageToCrop (app w) = Some (f, u) ->
                  In u (live (urls w))).
Proof.
  intros Hreach.
  destruct (reachable_UrlInv b w Hreach) as (Hc & _ & _ & _ & Hheld & _).
  assert (Hlive : forall u, In u (held (app w)) -> In u (live (urls w))).
  { intros u Hu. destruct (Hheld u Hu) as (Hlt & Hnew).
    apply live_iff. split; [|exact Hnew].
    rewrite Hc. apply in_seq. lia. }
  split.
  - intros u Hu. apply Hlive. unfold held. rewrite Hu. left. reflexivity.
  - intros f u Hu. apply Hlive. unfold held. rewrite Hu.
    apply in_or_app. right. left. reflexivity.
Qed.

Lemma displayed_urls_are_live_witness :
  In 1 (live (urls analyzingImage)).
Proof.
  destruct (displayed_urls_are_live sampleBrowser analyzingImage
              analyzingImage_reachable) as (Hup & _).
  apply Hup. reflexivity.
Defined.

Lemma existsb_snoc_fresh (u n : Url) (l : list Url) :
  u <> n ->
  existsb (Nat.eqb u) (l ++ [n]) = existsb (Nat.eqb u) l.
Proof.
  intros Hne. rewrite existsb_app. simpl.
  rewrite (proj2 (Nat.eqb_neq u n) Hne). rewrite !orb_false_r. reflexivity.
Qed.

(** Creating a URL and revoking it again leaves the live URLs as they
    were. *)
Lemma live_create_revoke (r : UrlRegistry) :
  created r = seq 0 (next_url r) ->
  live {| next_url := S (next_url r);
          created := created r ++ [next_url r];
          revoked := revoked r ++ [next_url r] |} = live r.
Proof.
  intros Hc. unfold live; simpl. rewrite filter_app. simpl.
  rewrite existsb_app. simpl. rewrite Nat.eqb_refl, orb_true_r. simpl.
  rewrite app_nil_r. apply filter_ext_in.
  intros u Hu. rewrite existsb_snoc_fresh; [reflexivity|].
  rewrite Hc in Hu. apply in_seq in Hu. lia.
Qed.

(** X10: from a reachable [IDLE] world, offering a file and then
    cancelling the crop leaves the live URLs exactly as they were and the
    session in [IDLE] with no image held: the URL created for the
    selected image is revoked by the cancel (and a file that is refused
    creates none). *)
Theorem select_then_cancel_releases (b : Browser) (w : World)
    (f : option File) :
  reachable b w ->
  appState (app w) = IDLE ->
  live (urls (run b w [FileOffered f; CancelClicked])) = live (urls w)
  /\ appState (app (run b w [FileOffered f; CancelClicked])) = IDLE
  /\ imageToCrop (app (run b w [FileOffered f; CancelClicked])) = None.
Proof.
  intros Hreach Hst.
  pose proof (reachable_Coherent b w Hreach) as Hc.
  destruct (reachable_UrlInv b w Hreach) as (Hcreated & _).
  unfold Coherent in Hc. rewrite Hst in Hc.
  destruct Hc as (Hitc & Hui & _).
  destruct w as [[st mode itc ui tp sub sol err] m r calls].
  simpl in *. subst st itc ui.
  destruct mode; [destruct f as [f|];
                  [destruct (JsString.startsWith "image/" (file_type f))
                     eqn:Hty|]|].
  - unfold run, fold_left, step, dispatch, handleFile; simpl.
    rewrite Hty. simpl. unfold revokeObjectURL; simpl.
    split; [apply live_create_revoke; exact Hcreated|].
    split; reflexivity.
  - unfold run, fold_left, step, dispatch, handleFile; simpl.
    rewrite Hty. simpl. repeat split.
  - simpl. repeat split.
  - simpl. repeat split.
Qed.

Lemma select_then_cancel_releases_witness :
  live (urls (run sampleBrowser initialWorld
                [FileOffered (Some fileA); CancelClicked])) = []
  /\ created (urls (run sampleBrowser initialWorld
                      [FileOffered (Some fileA); CancelClicked])) = [0].
Proof.
  destruct (select_then_cancel_releases sampleBrowser initialWorld
              (Some fileA)) as (Hlive & _).
  - exists []. reflexivity.
  - reflexivity.
  - split; [exact Hlive | reflexivity].
Defined.

(** X11: once a confirmation has gone through, that is, has taken the
    session to [ANALYZING], the URL of the source image is never revoked:
    in every later world it is still live, has no release, and is no
    longer referred to by the state. *)
Theorem confirmed_source_url_stays_live (b : Browser) (w : World)
    (f : File) (u : Url) (es : list Event) :
  reachable b w ->
  imageToCrop (app w) = Some (f, u) ->
  appState (app (step b w CropAndSolveClicked)) = ANALYZING ->
  In u (live (urls (run b (step b w CropAndSolveClicked) es)))
  /\ releases (urls (run b (step b w CropAndSolveClicked) es)) u = 0
  /\ ~ In u (held (app (run b (step b w CropAndSolveClicked) es))).
Proof.
  intros Hreach Hitc Hana.
  pose proof (reachable_Coherent b w Hreach) as Hc.
  unfold Coherent in Hc.
  assert (Hst : appState (app w) = CROPPING).
  { destruct (appState (app w)); try reflexivity;
      destruct Hc as (Hnone & _); rewrite Hitc in Hnone; discriminate. }
  rewrite Hst in Hc.
  destruct Hc as (_ & Hui & _).
  pose proof (reachable_UrlInv b w Hreach) as HU.
  assert (HU1 : UrlInv [u] (step b w CropAndSolveClicked)).
  { revert Hana. unfold step, UrlInv.
    rewrite !remount_app, remount_urls. unfold dispatch.
    destruct (_ && _); [|congruence].
    unfold handleConfirmCrop.
    destruct (completedCrop (modal w)) as [crop|]; [|congruence].
    destruct (imgRef (modal w)) as [image|]; [|congruence].
    destruct (getCroppedImg b image crop "image/jpeg") as [data|message];
      [|simpl; congruence].
    unfold handleCropConfirm.
    destruct (fetchData b _); [|simpl; congruence].
    intros _. unfold held. simpl.
    apply (RegOK_create (urls w) [] [u]).
    apply RegOK_forget.
    unfold UrlInv, held in HU. rewrite Hui, Hitc in HU. exact HU. }
  pose proof (run_UrlInv [u] b es _ HU1) as HU2.
  destruct HU2 as (Hc2 & _ & _ & _ & _ & HK).
  destruct (HK u (or_introl eq_refl)) as (Hlt & Hnew & Hnh).
  split; [|split].
  - apply live_iff. split; [|exact Hnew].
    rewrite Hc2. apply in_seq. lia.
  - unfold releases. apply count_occ_not_In. exact Hnew.
  - exact Hnh.
Qed.

Lemma confirmed_source_url_stays_live_witness :
  In 0 (live (urls (run sampleBrowser
                      (step sampleBrowser croppingA CropAndSolveClicked)
                      [ SolveSettled (Responds "x = 5");
                        SolveAnotherClicked ]))).
Proof.
  destruct (confirmed_source_url_stays_live sampleBrowser croppingA
              fileA 0
              [ SolveSettled (Responds "x = 5"); SolveAnotherClicked ])
    as (Hlive & _).
  - exact croppingA_reachable.
  - reflexivity.
  - reflexivity.
  - exact Hlive.
Defined.

(** ** The solution text before rendering *)

Import MarkdownRenderer.

Lemma breakBefore_inserts (marker : string -> option nat) (s : string) :
  forall skip, InsertsLF s (breakBefore marker skip s).
Proof.
  induction s as [|c s IH]; intros skip; simpl.
  - constructor.
  - destruct skip as [|k]; [|constructor; apply IH].
    destruct (nonSpace c); [|constructor; apply IH].
    destruct (marker s) as [n|]; constructor; [constructor|]; apply IH.
Qed.

Lemma InsertsLF_trans (s t u : string) :
  InsertsLF s t -> InsertsLF t u -> InsertsLF s u.
Proof.
  intros Hst Htu. revert s Hst.
  induction Htu as [|c t u Htu IH | t u Htu IH]; intros s Hst.
  - exact Hst.
  - inversion Hst as [|c' s' t' Hs' | s' t' Hs']; subst.
    + constructor. apply IH. exact Hs'.
    + apply ins_lf. apply IH. exact Hs'.
  - apply ins_lf. apply IH. exact Hst.
Qed.

Lemma InsertsLF_length (s t : string) :
  InsertsLF s t -> String.length s <= String.length t.
Proof. induction 1; simpl; lia. Qed.

(** X12: preprocessing only ever inserts line feeds: the text handed to
    the renderer is the solution with line feeds added, every other
    character kept, in order; it is never shorter. *)
Theorem preprocess_only_inserts_line_feeds (content : string) :
  InsertsLF content (preprocess content)
  /\ String.length content <= String.length (preprocess content).
Proof.
  assert (H : InsertsLF content (preprocess content)).
  { unfold preprocess.
    eapply InsertsLF_trans; [|apply breakBefore_inserts].
    eapply InsertsLF_trans; [|apply breakBefore_inserts].
    apply breakBefore_inserts. }
  split; [exact H | apply InsertsLF_length; exact H].
Qed.

(** *** Markers end at the first white space *)

Lemma space_not (w : ascii) (c : ascii) :
  JsString.isWhiteSpace w = true -> JsString.isWhiteSpace c = false ->
  Ascii.eqb w c = false.
Proof.
  intros Hw Hc. destruct (Ascii.eqb w c) eqn:E; [|reflexivity].
  apply Ascii.eqb_eq in E. congruence.
Qed.

Lemma space_not_digit (w : ascii) :
  JsString.isWhiteSpace w = true -> isDigit w = false.
Proof.
  destruct w as [[] [] [] [] [] [] [] []]; vm_compute; congruence.
Qed.

Lemma heading_EndsAtSpace : EndsAtSpace heading.
Proof.
  split; [reflexivity|]. intros q w t Hw.
  pose proof (space_not w "#" Hw eq_refl) as Hhash.
  destruct q as [|a [|b [|c q]]]; simpl.
  - split; [|discriminate].
    destruct t as [|b [|c t]]; try reflexivity.
    rewrite Hhash. reflexivity.
  - split; [|discriminate].
    destruct t as [|c t]; try reflexivity.
    rewrite Hhash, andb_false_r. reflexivity.
  - split; [reflexivity|]. intros n.
    destruct (_ && _); intros H; inversion H. lia.
  - split; [reflexivity|]. intros n.
    destruct (_ && _); intros H; inversion H. lia.
Qed.

Lemma bullet_EndsAtSpace : EndsAtSpace bullet.
Proof.
  split; [reflexivity|]. intros q w t Hw.
  pose proof (space_not w "*" Hw eq_refl) as Hstar.
  pose proof (space_not w "-" Hw eq_refl) as Hdash.
  destruct q as [|a [|c q]]; simpl.
  - split; [|discriminate].
    destruct t as [|c t]; try reflexivity.
    rewrite Hstar, Hdash. reflexivity.
  - split; [reflexivity|]. intros n.
    destruct (_ && _); intros H; inversion H. lia.
  - split; [reflexivity|]. intros n.
    destruct (_ && _); intros H; inversion H. lia.
Qed.

Lemma digits_stop (q : string) (w : ascii) (t : string) :
  isDigit w = false ->
  digits (q ++ String w t) = digits q /\ digits q <= String.length q.
Proof.
  intros Hw. induction q as [|c q (IH1 & IH2)]; simpl.
  - rewrite Hw. auto.
  - destruct (isDigit c); [rewrite IH1|]; split; auto; lia.
Qed.

Lemma drop_app_le (k : nat) (q s : string) :
  k <= String.length q ->
  JsString.drop k (q ++ s) = JsString.drop k q ++ s
  /\ String.length (JsString.drop k q) = String.length q - k.
Proof.
  revert q. induction k as [|k IH]; intros q Hk.
  - destruct q; simpl; auto.
  - destruct q as [|c q]; simpl in *; [lia|].
    apply IH. lia.
Qed.

Lemma numbered_EndsAtSpace : EndsAtSpace numbered.
Proof.
  split; [reflexivity|]. intros q w t Hw.
  pose proof (space_not w "." Hw eq_refl) as Hdot.
  pose proof (space_not_digit w Hw) as Hdig.
  unfold numbered.
  destruct (digits_stop q w t Hdig) as (-> & Hle).
  destruct (digits_stop q w "" Hdig) as (-> & _).
  destruct (digits q) as [|k'] eqn:Hk; [split; [reflexivity|discriminate]|].
  destruct (drop_app_le (S k') q (String w t) Hle) as (-> & Hlen).
  destruct (drop_app_le (S k') q (String w "") Hle) as (-> & _).
  destruct (JsString.drop (S k') q) as [|a [|c r]]; simpl in *.
  - split; [|discriminate].
    destruct t as [|c t]; try reflexivity. rewrite Hdot. reflexivity.
  - split; [reflexivity|]. intros n.
    destruct (_ && _); intros H; inversion H. lia.
  - split; [reflexivity|]. intros n.
    destruct (_ && _); intros H; inversion H. lia.
Qed.

(** One pass acts on the text up to a white space and on the text after
    it independently. *)
Lemma breakBefore_splits (marker : string -> option nat) (w : ascii)
    (t : string) :
  EndsAtSpace marker -> JsString.isWhiteSpace w = true ->
  forall p skip, skip <= String.length p + 1 ->
    breakBefore marker skip (p ++ String w t) =
    breakBefore marker skip (p ++ String w "") ++ breakBefore marker 0 t.
Proof.
  intros (_ & Hends) Hw.
  assert (Hns : nonSpace w = false) by (unfold nonSpace; rewrite Hw; reflexivity).
  induction p as [|c p IH]; intros skip Hskip; simpl.
  - rewrite Hns. destruct skip as [|k].
    + reflexivity.
    + assert (k = 0) as -> by (simpl in Hskip; lia). reflexivity.
  - destruct skip as [|k].
    + destruct (nonSpace c).
      * destruct (Hends p w t Hw) as (-> & Hn).
        destruct (marker (p ++ String w "")) as [n|] eqn:Hm.
        -- simpl. do 2 f_equal. apply IH. apply Hn. reflexivity.
        -- simpl. f_equal. apply IH. lia.
      * simpl. f_equal. apply IH. lia.
    + simpl. f_equal. apply IH. simpl in Hskip. lia.
Qed.

(** A pass keeps the last character of the text in its place when the
    empty string holds no marker. *)
Lemma breakBefore_keeps_last (marker : string -> option nat) (w : ascii) :
  marker "" = None ->
  forall p skip, exists q,
    breakBefore marker skip (p ++ String w "") = q ++ String w "".
Proof.
  intros Hnil. induction p as [|c p IH]; intros skip; simpl.
  - exists "". destruct skip; [destruct (nonSpace w); [rewrite Hnil|]|];
      reflexivity.
  - destruct skip as [|k].
    + destruct (nonSpace c).
      * destruct (marker (p ++ String w "")) as [n|].
        -- destruct (IH n) as (q & ->). exists (String c (String LF q)).
           reflexivity.
        -- destruct (IH 0) as (q & ->). exists (String c q). reflexivity.
      * destruct (IH 0) as (q & ->). exists (String c q). reflexivity.
    + destruct (IH k) as (q & ->). exists (String c q). reflexivity.
Qed.

Lemma append_assoc (a b c : string) : (a ++ b) ++ c = a ++ (b ++ c).
Proof. induction a as [|x a IH]; simpl; [|rewrite IH]; reflexivity. Qed.

Lemma preprocess_splits (p : string) (w : ascii) (t : string) :
  JsString.isWhiteSpace w = true ->
  preprocess (p ++ String w t) =
  preprocess (p ++ String w "") ++ preprocess t.
Proof.
  intros Hw. unfold preprocess.
  rewrite (breakBefore_splits heading w t heading_EndsAtSpace Hw p 0)
    by lia.
  destruct (breakBefore_keeps_last heading w
              (proj1 heading_EndsAtSpace) p 0) as (q1 & ->).
  rewrite append_assoc. simpl (String w "" ++ _).
  rewrite (breakBefore_splits numbered w _ numbered_EndsAtSpace Hw q1 0)
    by lia.
  destruct (breakBefore_keeps_last numbered w
              (proj1 numbered_EndsAtSpace) q1 0) as (q2 & ->).
  rewrite append_assoc. simpl (String w "" ++ _).
  rewrite (breakBefore_splits bullet w _ bullet_EndsAtSpace Hw q2 0)
    by lia.
  reflexivity.
Qed.

(** X13: preprocessing never looks across white space: at any white
    space character the content can be cut in two, and preprocessing the
    whole is preprocessing the part up to and including that character
    followed by preprocessing the rest. *)
Theorem preprocess_is_local_to_words (p : string) (w : ascii) (t : string) :
  JsString.isWhiteSpace w = true ->
  preprocess (p ++ String w t) =
  preprocess (p ++ String w "") ++ preprocess t.
Proof. apply preprocess_splits. Qed.

Lemma preprocess_is_local_to_words_witness :
  preprocess ("Step" ++ String " " "1.Add## Done") =
  preprocess ("Step" ++ String " " "") ++ preprocess "1.Add## Done".
Proof.
  apply (preprocess_is_local_to_words "Step" " " "1.Add## Done").
  reflexivity.
Defined.

(** One step of a pass. *)
Lemma breakBefore_copy (marker : string -> option nat) (c : ascii)
    (s : string) :
  nonSpace c = true -> marker s = None ->
  breakBefore marker 0 (String c s) = String c (breakBefore marker 0 s).
Proof. intros Hc Hm. simpl. rewrite Hc, Hm. reflexivity. Qed.

Lemma breakBefore_space (marker : string -> option nat) (c : ascii)
    (s : string) :
  nonSpace c = false ->
  breakBefore marker 0 (String c s) = String c (breakBefore marker 0 s).
Proof. intros Hc. simpl. rewrite Hc. reflexivity. Qed.

Lemma breakBefore_break (marker : string -> option nat) (c : ascii)
    (s : string) (n : nat) :
  nonSpace c = true -> marker s = Some n ->
  breakBefore marker 0 (String c s) =
  String c (String LF (breakBefore marker n s)).
Proof. intros Hc Hm. simpl. rewrite Hc, Hm. reflexivity. Qed.

Lemma breakBefore_skip (marker : string -> option nat) (c : ascii)
    (s : string) (k : nat) :
  breakBefore marker (S k) (String c s) =
  String c (breakBefore marker k s).
Proof. reflexivity. Qed.

(** A marker starts with its own first character. *)
Lemma heading_head (a : ascii) (s : string) :
  Ascii.eqb a "#" = false -> heading (String a s) = None.
Proof. intros H. destruct s as [|b [|c s]]; simpl; rewrite ?H; reflexivity. Qed.

Lemma bullet_head (a : ascii) (s : string) :
  Ascii.eqb a "*" = false -> Ascii.eqb a "-" = false ->
  bullet (String a s) = None.
Proof.
  intros H1 H2. destruct s as [|c s]; simpl; rewrite ?H1, ?H2; reflexivity.
Qed.

Ltac no_marker :=
  first [ reflexivity
        | apply heading_head; reflexivity
        | apply bullet_head; reflexivity ].

Ltac walk :=
  repeat first
    [ rewrite breakBefore_skip
    | rewrite breakBefore_space by reflexivity
    | rewrite breakBefore_copy by no_marker
    | erewrite breakBefore_break by reflexivity ].

(** X14: a level-three heading never reaches the renderer: at the start
    of the content, and after any white space, ["### "] is rewritten to
    ["#"], a line feed and ["## "], since the first ["#"] counts as the
    character before a level-two marker. *)
Theorem level_three_heading_is_rewritten (p : string) (w : ascii)
    (t : string) :
  JsString.isWhiteSpace w = true ->
  preprocess ("### " ++ t) = String "#" (String LF ("## " ++ preprocess t))
  /\ preprocess (p ++ String w ("### " ++ t)) =
     preprocess (p ++ String w "")
     ++ String "#" (String LF ("## " ++ preprocess t)).
Proof.
  intros Hw.
  assert (Hstart : forall t', preprocess ("### " ++ t') =
                     String "#" (String LF ("## " ++ preprocess t'))).
  { intros t'. unfold preprocess. simpl String.append.
    walk. reflexivity. }
  split; [apply Hstart|].
  rewrite preprocess_splits by exact Hw. rewrite Hstart. reflexivity.
Qed.

Lemma level_three_heading_is_rewritten_witness :
  preprocess ("## Solution" ++ String LF ("### " ++ "Step one")) =
  "## Solution" ++ String LF (String "#" (String LF "## Step one")).
Proof.
  destruct (level_three_heading_is_rewritten "## Solution" LF "Step one")
    as (_ & H).
  - reflexivity.
  - rewrite H. reflexivity.
Defined.

(** A pass copies a run of characters in which no marker starts. *)
Lemma breakBefore_quiet (marker : string -> option nat) (rest : string)
    (q : string) :
  noSpace q = true ->
  (forall q', noSpace q' = true -> marker (q' ++ rest) = None) ->
  breakBefore marker 0 (q ++ rest) = q ++ breakBefore marker 0 rest.
Proof.
  intros Hq Hquiet. induction q as [|c q IH]; simpl.
  - reflexivity.
  - simpl in Hq. apply andb_prop in Hq. destruct Hq as (Hc & Hq).
    rewrite Hc, (Hquiet q Hq), (IH Hq). reflexivity.
Qed.

Lemma noSpace_cons (c : ascii) (q : string) :
  noSpace (String c q) = true ->
  JsString.isWhiteSpace c = false /\ noSpace q = true.
Proof.
  simpl. intros H. apply andb_prop in H. destruct H as (Hc & Hq).
  unfold nonSpace in Hc. apply negb_true_iff in Hc. auto.
Qed.

Lemma heading_before_stars (t q : string) :
  noSpace q = true -> heading (q ++ "** " ++ t) = None.
Proof.
  intros Hq. destruct q as [|a [|b [|c q]]].
  - reflexivity.
  - simpl. rewrite andb_false_r. reflexivity.
  - simpl. rewrite andb_false_r. reflexivity.
  - apply noSpace_cons in Hq. destruct Hq as (_ & Hq).
    apply noSpace_cons in Hq. destruct Hq as (_ & Hq).
    apply noSpace_cons in Hq. destruct Hq as (Hc & _).
    simpl. rewrite Hc, andb_false_r. reflexivity.
Qed.

Lemma bullet_before_stars (t q : string) :
  noSpace q = true -> bullet (q ++ "** " ++ t) = None.
Proof.
  intros Hq. destruct q as [|a [|c q]].
  - reflexivity.
  - simpl. rewrite andb_false_r. reflexivity.
  - apply noSpace_cons in Hq. destruct Hq as (_ & Hq).
    apply noSpace_cons in Hq. destruct Hq as (Hc & _).
    simpl. rewrite Hc, andb_false_r. reflexivity.
Qed.

Lemma noSpace_drop (k : nat) (q : string) :
  noSpace q = true -> noSpace (JsString.drop k q) = true.
Proof.
  revert q. induction k as [|k IH]; intros q Hq.
  - destruct q; exact Hq.
  - destruct q as [|c q]; [exact Hq|]. simpl.
    apply IH. apply noSpace_cons in Hq. apply Hq.
Qed.

Lemma numbered_before_stars (t q : string) :
  noSpace q = true -> numbered (q ++ "** " ++ t) = None.
Proof.
  intros Hq. unfold numbered.
  destruct (digits_stop q "*" ("* " ++ t) eq_refl) as (Hd & Hle).
  change (q ++ "** " ++ t) with (q ++ String "*" ("* " ++ t)).
  rewrite Hd.
  destruct (digits q) as [|k'] eqn:Hk; [reflexivity|].
  destruct (drop_app_le (S k') q (String "*" ("* " ++ t)) Hle) as (-> & _).
  pose proof (noSpace_drop (S k') q Hq) as Hdrop.
  destruct (JsString.drop (S k') q) as [|a [|c r]].
  - reflexivity.
  - simpl. rewrite andb_false_r. reflexivity.
  - apply noSpace_cons in Hdrop. destruct Hdrop as (_ & Hdrop).
    apply noSpace_cons in Hdrop. destruct Hdrop as (Hc & _).
    simpl. rewrite Hc, andb_false_r. reflexivity.
Qed.

(** X15: a run of characters that ends in ["**"] and is followed by a
    space, such as a bold term followed by a word, is broken: a line feed
    is put between the two stars, at the start of the content and after
    any white space. *)
Theorem closing_bold_before_space_is_broken (p : string) (w : ascii)
    (q t : string) :
  JsString.isWhiteSpace w = true ->
  noSpace q = true ->
  preprocess (q ++ "** " ++ t) =
    q ++ String "*" (String LF ("* " ++ preprocess t))
  /\ preprocess (p ++ String w (q ++ "** " ++ t)) =
     preprocess (p ++ String w "")
     ++ q ++ String "*" (String LF ("* " ++ preprocess t)).
Proof.
  intros Hw Hq.
  assert (E1 : forall X, breakBefore heading 0 (q ++ "** " ++ X) =
                         q ++ "** " ++ breakBefore heading 0 X).
  { intros X.
    rewrite (breakBefore_quiet heading ("** " ++ X) q Hq
               (heading_before_stars X)).
    f_equal. all: simpl String.append; walk; reflexivity. }
  assert (E2 : forall X, breakBefore numbered 0 (q ++ "** " ++ X) =
                         q ++ "** " ++ breakBefore numbered 0 X).
  { intros X.
    rewrite (breakBefore_quiet numbered ("** " ++ X) q Hq
               (numbered_before_stars X)).
    f_equal. all: simpl String.append; walk; reflexivity. }
  assert (E3 : forall X, breakBefore bullet 0 (q ++ "** " ++ X) =
                 q ++ String "*" (String LF ("* " ++ breakBefore bullet 0 X))).
  { intros X.
    rewrite (breakBefore_quiet bullet ("** " ++ X) q Hq
               (bullet_before_stars X)).
    f_equal. all: simpl String.append; walk; reflexivity. }
  assert (Hstart : preprocess (q ++ "** " ++ t) =
                   q ++ String "*" (String LF ("* " ++ preprocess t))).
  { unfold preprocess. rewrite E1, E2, E3. reflexivity. }
  split; [exact Hstart|].
  rewrite preprocess_splits by exact Hw. rewrite Hstart. reflexivity.
Qed.

Lemma closing_bold_before_space_is_broken_witness :
  preprocess ("subtract " ++ "**$5$" ++ "** " ++ "from both sides") =
  "subtract **$5$*" ++ String LF "* from both sides".
Proof.
  destruct (closing_bold_before_space_is_broken "subtract" " " "**$5$"
              "from both sides") as (_ & H).
  - reflexivity.
  - reflexivity.
  - change ("subtract " ++ "**$5$" ++ "** " ++ "from both sides")
      with ("subtract" ++ String " " ("**$5$" ++ "** " ++ "from both sides")).
    rewrite H. reflexivity.
Defined.

Lemma isDigit_cases (d : ascii) :
  isDigit d = true ->
  In d ["0"; "1"; "2"; "3"; "4"; "5"; "6"; "7"; "8"; "9"]%char.
Proof.
  destruct d as [[] [] [] [] [] [] [] []]; vm_compute; intros H;
    try discriminate; tauto.
Qed.

(** X16: a list number of two digits is split: at the start of the
    content, and after any white space, the first digit counts as the
    character before the marker and a line feed is put after it. *)
Theorem two_digit_item_number_is_split (p : string) (w : ascii)
    (d1 d2 : ascii) (t : string) :
  JsString.isWhiteSpace w = true ->
  isDigit d1 = true ->
  isDigit d2 = true ->
  preprocess (String d1 (String d2 (". " ++ t))) =
    String d1 (String LF (String d2 (". " ++ preprocess t)))
  /\ preprocess (p ++ String w (String d1 (String d2 (". " ++ t)))) =
     preprocess (p ++ String w "")
     ++ String d1 (String LF (String d2 (". " ++ preprocess t))).
Proof.
  intros Hw H1 H2.
  assert (Hstart : preprocess (String d1 (String d2 (". " ++ t))) =
                   String d1 (String LF (String d2 (". " ++ preprocess t)))).
  { apply isDigit_cases in H1. apply isDigit_cases in H2.
    simpl in H1, H2.
    unfold preprocess.
    repeat (destruct H1 as [<- | H1]; [|]); try contradiction;
      repeat (destruct H2 as [<- | H2]; [|]); try contradiction;
      match goal with
      | |- context [breakBefore heading 0 (String ?a (String ?b ?s))] =>
          replace (breakBefore heading 0 (String a (String b s)))
            with (String a (String b (". " ++ breakBefore heading 0 t)))
            by (simpl String.append; walk; reflexivity);
          replace (breakBefore numbered 0
                     (String a (String b (". " ++ breakBefore heading 0 t))))
            with (String a (String LF (String b
                    (". " ++ breakBefore numbered 0
                               (breakBefore heading 0 t)))))
            by (simpl String.append; walk; reflexivity)
      end;
      simpl String.append; walk; reflexivity. }
  split; [exact Hstart|].
  rewrite preprocess_splits by exact Hw. rewrite Hstart. reflexivity.
Qed.

Lemma two_digit_item_number_is_split_witness :
  preprocess ("10. Divide both sides") =
  String "1" (String LF "0. Divide both sides").
Proof.
  destruct (two_digit_item_number_is_split "" " " "1" "0"
              "Divide both sides") as (H & _).
  - reflexivity.
  - reflexivity.
  - reflexivity.
  - exact H.
Defined.

(** ** The uploader *)

(** The file handler of the session is the uploader's: a selected file
    goes to [handleImageSelect], an alert changes nothing. *)
Lemma handleFile_effect (file : option File) (w : World) :
  handleFile file w =
  match ImageUploader.handleFile file with
  | ImageUploader.Selected f => handleImageSelect f w
  | ImageUploader.Alerted => w
  end.
Proof.
  unfold handleFile, ImageUploader.handleFile.
  destruct file as [f|]; [|reflexivity].
  destruct (JsString.startsWith "image/" (file_type f)); reflexivity.
Qed.

(** X17: a disabled uploader ignores dragging and dropping: whatever
    sequence of drag-over, drag-leave and drop events it receives, it
    never shows the dragging highlight, selects no file and raises no
    alert.  (A change event of the file input is not among them: its
    handler has no such guard.) *)
Theorem disabled_uploader_is_inert (es : list ImageUploader.DomEvent) :
  Forall (fun e => forall files, e <> ImageUploader.Change files) es ->
  fold_left (ImageUploader.react true) es ImageUploader.initial
  = ImageUploader.initial.
Proof.
  induction 1 as [|e es He Hes IH]; simpl; [reflexivity|].
  destruct e as [files| | |files]; simpl; try exact IH.
  - elim (He files). reflexivity.
  - unfold ImageUploader.handleDrop; simpl.
    destruct files; exact IH.
Qed.

Lemma disabled_uploader_is_inert_witness :
  fold_left (ImageUploader.react true)
    [ ImageUploader.DragOver; ImageUploader.Drop [fileA];
      ImageUploader.DragLeave ] ImageUploader.initial
  = ImageUploader.initial.
Proof.
  apply (disabled_uploader_is_inert
           [ ImageUploader.DragOver; ImageUploader.Drop [fileA];
             ImageUploader.DragLeave ]).
  repeat constructor; discriminate.
Defined.

Lemma react_selects_images (disabled : bool) (u : ImageUploader.Uploader)
    (e : ImageUploader.DomEvent) :
  (forall f, In (ImageUploader.Selected f) (ImageUploader.effects u) ->
             JsString.startsWith "image/" (file_type f) = true) ->
  forall f,
    In (ImageUploader.Selected f)
       (ImageUploader.effects (ImageUploader.react disabled u e)) ->
    JsString.startsWith "image/" (file_type f) = true.
Proof.
  intros Hu f.
  assert (Hnew : forall g,
            In (ImageUploader.Selected f)
               (ImageUploader.effects u
                ++ [ImageUploader.handleFile (Some g)])%list ->
            JsString.startsWith "image/" (file_type f) = true).
  { intros g Hin. apply in_app_or in Hin. destruct Hin as [Hin | [Heq | []]].
    - apply Hu. exact Hin.
    - unfold ImageUploader.handleFile in Heq.
      destruct (JsString.startsWith "image/" (file_type g)) eqn:Hty;
        [|discriminate].
      injection Heq as <-. exact Hty. }
  destruct e as [files| | |files]; simpl.
  - unfold ImageUploader.handleFileChange.
    destruct files as [|g files]; [apply Hu | apply Hnew].
  - unfold ImageUploader.handleDragOver. destruct (negb disabled); apply Hu.
  - apply Hu.
  - unfold ImageUploader.handleDrop.
    destruct files as [|g files]; simpl; [apply Hu|].
    destruct (negb disabled); simpl; [apply Hnew | apply Hu].
Qed.

(** X18: whatever happens to the uploader, every file it hands to
    [onImageSelect] has a media type that starts with ["image/"], and
    right after a drop the dragging highlight is off. *)
Theorem uploader_selects_only_images (disabled : bool)
    (es : list ImageUploader.DomEvent) :
  (forall f,
     In (ImageUploader.Selected f)
        (ImageUploader.effects
           (fold_left (ImageUploader.react disabled) es
              ImageUploader.initial)) ->
     JsString.startsWith "image/" (file_type f) = true)
  /\ (forall files,
        ImageUploader.isDragging
          (fold_left (ImageUploader.react disabled)
             (es ++ [ImageUploader.Drop files]) ImageUploader.initial)
        = false).
Proof.
  split.
  - assert (Hgen : forall u,
              (forall f, In (ImageUploader.Selected f)
                            (ImageUploader.effects u) ->
                         JsString.startsWith "image/" (file_type f) = true) ->
              forall f,
                In (ImageUploader.Selected f)
                   (ImageUploader.effects
                      (fold_left (ImageUploader.react disabled) es u)) ->
                JsString.startsWith "image/" (file_type f) = true).
    { induction es as [|e es IH]; intros u Hu; simpl; [exact Hu|].
      apply IH. apply react_selects_images. exact Hu. }
    apply Hgen. intros f [].
  - intros files. rewrite fold_left_app. simpl.
    unfold ImageUploader.handleDrop.
    destruct files; simpl; [reflexivity|].
    destruct (negb disabled); reflexivity.
Qed.

(** ** More on the crop *)

(** X19: when [window.devicePixelRatio] is [0] or not a number, the crop
    uses the ratio [1]: for a selection whose width and height, in whole
    pixels, lie between 1 and [2^31 - 1], the canvas is sized to the
    selection itself and the blit is drawn unscaled. *)
Theorem missing_pixel_ratio_means_one (b : Browser)
    (image : HTMLImageElement) (crop : PixelCrop float) :
  falsy (devicePixelRatio b) = true ->
  context2d b = true ->
  (1 <= toUnsignedLong (crop_width crop * 1)%float <= 2147483647)%N ->
  (1 <= toUnsignedLong (crop_height crop * 1)%float <= 2147483647)%N ->
  exists canvas blit,
    renderCrop b image crop = Some canvas
    /\ cv_width canvas = toUnsignedLong (crop_width crop * 1)%float
    /\ cv_height canvas = toUnsignedLong (crop_height crop * 1)%float
    /\ cv_blits canvas = [blit]
    /\ blit_ctm blit = identity.
Proof.
  intros Hfalsy Hctx (_ & Hw) (_ & Hh). do 2 eexists. split.
  - apply renderCrop_with_context. exact Hctx.
  - unfold orElse. rewrite Hfalsy. simpl. unfold reflected.
    rewrite (proj2 (N.leb_le _ _) Hw), (proj2 (N.leb_le _ _) Hh).
    repeat split.
Qed.

Lemma missing_pixel_ratio_means_one_witness :
  exists canvas,
    renderCrop {| devicePixelRatio := 0%float; context2d := true;
                  toDataURL := toDataURL sampleBrowser;
                  fetchData := fetchData sampleBrowser |}
      samplePhoto sampleCrop = Some canvas
    /\ cv_width canvas = 100%N /\ cv_height canvas = 50%N.
Proof.
  destruct (missing_pixel_ratio_means_one
              {| devicePixelRatio := 0%float; context2d := true;
                 toDataURL := toDataURL sampleBrowser;
                 fetchData := fetchData sampleBrowser |}
              samplePhoto sampleCrop)
    as (canvas & blit & Hr & Hw & Hh & _).
  - reflexivity.
  - reflexivity.
  - vm_compute. split; discriminate.
  - vm_compute. split; discriminate.
  - exists canvas. split; [exact Hr|]. split; [exact Hw | exact Hh].
Defined.

(** X20: in exact arithmetic the selection of the whole preview maps to
    the whole image: its corner to the origin, its width to
    [naturalWidth], its height to [naturalHeight]. *)
Theorem whole_preview_maps_to_whole_image (image : HTMLImageElement) :
  (0 < img_width image)%N ->
  (0 < img_height image)%N ->
  (crop_x (sourceRect image
             {| crop_x := 0%Q; crop_y := 0%Q;
                crop_width := of_uint (img_width image);
                crop_height := of_uint (img_height image) |}) == 0)%Q
  /\ (crop_y (sourceRect image
                {| crop_x := 0%Q; crop_y := 0%Q;
                   crop_width := of_uint (img_width image);
                   crop_height := of_uint (img_height image) |}) == 0)%Q
  /\ (crop_width (sourceRect image
                    {| crop_x := 0%Q; crop_y := 0%Q;
                       crop_width := of_uint (img_width image);
                       crop_height := of_uint (img_height image) |})
      == of_uint (naturalWidth image))%Q
  /\ (crop_height (sourceRect image
                     {| crop_x := 0%Q; crop_y := 0%Q;
                        crop_width := of_uint (img_width image);
                        crop_height := of_uint (img_height image) |})
      == of_uint (naturalHeight image))%Q.
Proof.
  intros HW HH. simpl.
  split; [apply Qmult_0_l|]. split; [apply Qmult_0_l|].
  split; [apply scale_cancel; exact HW | apply scale_cancel; exact HH].
Qed.

Lemma whole_preview_maps_to_whole_image_witness :
  (crop_width (sourceRect narrowPreview
                 {| crop_x := 0%Q; crop_y := 0%Q;
                    crop_width := 314%Q; crop_height := 177%Q |})
   == 1920)%Q.
Proof.
  destruct (whole_preview_maps_to_whole_image narrowPreview)
    as (_ & _ & Hw & _).
  - reflexivity.
  - reflexivity.
  - exact Hw.
Defined.

(** X21: from a reachable world that shows a result, "Solve Another
    Problem" puts every cell of the application back to its initial
    value, the typed problem included; only the selected tab is kept.
    Nothing is in flight and the modal holds no state. *)
Theorem solve_another_restores_the_start (b : Browser) (w : World) :
  reachable b w ->
  View.resetRendered (app w) = true ->
  app (step b w SolveAnotherClicked) =
    {| appState := IDLE; inputMode := inputMode (app w);
       imageToCrop := None; uploadedImage := None; textProblem := "";
       submittedText := None; solution := None; error := None |}
  /\ modal (step b w SolveAnotherClicked) = initialModal
  /\ inflight (step b w SolveAnotherClicked) = [].
Proof.
  intros Hreach Hr.
  destruct (reachable_Inv b w Hreach) as (_ & Hnone & _).
  assert (Hst : appState (app w) <> ANALYZING).
  { apply resetRendered_true in Hr. destruct Hr as [-> | ->]; discriminate. }
  unfold step, dispatch. rewrite Hr.
  split; [rewrite remount_app; reflexivity|].
  split.
  - apply remount_modal. rewrite remount_app. reflexivity.
  - rewrite remount_inflight. simpl. apply Hnone. exact Hst.
Qed.

Lemma solve_another_restores_the_start_witness :
  app (run sampleBrowser initialWorld
         (typeAndSubmit "2x+5=15"
          ++ [SolveSettled (Responds "x = 5"); SolveAnotherClicked]))
  = {| appState := IDLE; inputMode := text;
       imageToCrop := None; uploadedImage := None; textProblem := "";
       submittedText := None; solution := None; error := None |}.
Proof.
  destruct (solve_another_restores_the_start sampleBrowser
              (run sampleBrowser initialWorld
                 (typeAndSubmit "2x+5=15"
                  ++ [SolveSettled (Responds "x = 5")])))
    as (Happ & _).
  - eexists. reflexivity.
  - reflexivity.
  - exact Happ.
Defined.
